(** * Walking-route generator: a shallow embedding and its properties

    The development follows the three source files of the application:
    - [src/lib/types.ts] (the [Route] record and the helpers of [utils]):
      the point sampler, the unit conversions and the elevation estimate;
    - [src/lib/mapbox-api.ts]: [getIsochrone] and [getDirections];
    - [src/components/map-component.tsx]: [clearMapLayers],
      [filterRoutesByDuration], [generateRoutes] and [addRoutesToMap].

    JavaScript numbers are modelled by exact rationals ([Q]); rounding of
    IEEE doubles is not represented.  The network, [Math.random] and the
    number-to-string conversion of template literals are supplied by an
    environment record, so every function below is executable on a concrete
    environment. *)

From Stdlib Require Import String Ascii DecimalString.
From Stdlib Require Import List ZArith QArith Qround Qminmax Bool Lia Lqa Arith.
Import ListNotations.

Set Implicit Arguments.

Open Scope string_scope.
Open Scope list_scope.
Open Scope Q_scope.

(** ** Numbers and thrown errors *)

Definition number := Q.

(** [a < b] on numbers, as a boolean. *)
Definition Qltb (a b : Q) : bool := negb (Qle_bool b a).

(** [a === b] on numbers. *)
Definition Qeqb (a b : Q) : bool := Qeq_bool a b.

(** A computation that either returns or throws an [Error]; the thrown
    value is represented by its [message]. *)
Inductive Result (A : Type) : Type :=
| Ok (a : A)
| Throw (message : string).
Arguments Ok {A} a.
Arguments Throw {A} message.

(** ** GeoJSON data *)

(** A position is [[lng, lat]]. *)
Definition Position := (number * number)%type.

Definition Ring := list Position.

(** A GeoJSON polygon: the exterior ring, then the holes
    ([coordinates[0]], [coordinates[1..]]). *)
Record Polygon := mkPolygon {
  exterior : Ring;
  holes : list Ring
}.

Definition coordinates (p : Polygon) : list Ring := exterior p :: holes p.

(** ** The [turf] functions the sampler calls

    [turf] is a third-party library; these definitions follow its
    algorithms: [polygon] validates the rings, [bbox] scans every
    coordinate, [booleanPointInPolygon] is the ray-casting test with its
    default option [ignoreBoundary = false]. *)
Module Turf.

Definition position_eqb (a b : Position) : bool :=
  Qeqb (fst a) (fst b) && Qeqb (snd a) (snd b).

Definition origin : Position := (0, 0).

(** [turf.polygon]: each ring needs four or more positions and must be
    closed, or the constructor throws. *)
Definition check_ring (r : Ring) : Result unit :=
  if (length r <? 4)%nat then
    Throw "Each LinearRing of a Polygon must have 4 or more Positions."
  else if negb (position_eqb (last r origin) (hd origin r)) then
    Throw "First and last Position are not equivalent."
  else Ok tt.

Fixpoint check_rings (rs : list Ring) : Result unit :=
  match rs with
  | [] => Ok tt
  | r :: rest =>
      match check_ring r with
      | Ok _ => check_rings rest
      | Throw m => Throw m
      end
  end.

Definition polygon (p : Polygon) : Result Polygon :=
  match check_rings (coordinates p) with
  | Ok _ => Ok p
  | Throw m => Throw m
  end.

(** [[minX, minY, maxX, maxY]] *)
Record BBox := mkBBox { minX : number; minY : number; maxX : number; maxY : number }.

Definition extend (result : BBox) (coord : Position) : BBox :=
  let r0 := if Qltb (fst coord) (minX result) then fst coord else minX result in
  let r1 := if Qltb (snd coord) (minY result) then snd coord else minY result in
  let r2 := if Qltb (maxX result) (fst coord) then fst coord else maxX result in
  let r3 := if Qltb (maxY result) (snd coord) then snd coord else maxY result in
  mkBBox r0 r1 r2 r3.

(** [turf.bbox] starts from [[Infinity, Infinity, -Infinity, -Infinity]]
    and extends it with every coordinate; a polygon accepted by [polygon]
    has a first coordinate, which replaces the infinite start here. *)
Definition bbox (p : Polygon) : BBox :=
  match concat (coordinates p) with
  | [] => mkBBox 0 0 0 0
  | c :: rest => fold_left extend rest (mkBBox (fst c) (snd c) (fst c) (snd c))
  end.

(** One step of the edge loop of [inRing]: [cur] is [ring[i]], [prev] is
    [ring[j]]. *)
Definition onBoundary (pt cur prev : Position) : bool :=
  let '(xi, yi) := cur in
  let '(xj, yj) := prev in
  Qeqb (snd pt * (xi - xj) + yi * (xj - fst pt) + yj * (fst pt - xi)) 0
  && Qle_bool ((xi - fst pt) * (xj - fst pt)) 0
  && Qle_bool ((yi - snd pt) * (yj - snd pt)) 0.

Definition intersect (pt cur prev : Position) : bool :=
  let '(xi, yi) := cur in
  let '(xj, yj) := prev in
  negb (Bool.eqb (Qltb (snd pt) yi) (Qltb (snd pt) yj))
  && Qltb (fst pt) ((xj - xi) * (snd pt - yi) / (yj - yi) + xi).

Fixpoint inRing_loop (pt prev : Position) (rest : Ring)
         (ignoreBoundary isInside : bool) : bool :=
  match rest with
  | [] => isInside
  | cur :: rest' =>
      if onBoundary pt cur prev then negb ignoreBoundary
      else inRing_loop pt cur rest' ignoreBoundary
             (if intersect pt cur prev then negb isInside else isInside)
  end.

Definition inRing (pt : Position) (ring : Ring) (ignoreBoundary : bool) : bool :=
  let ring' :=
    if position_eqb (hd origin ring) (last ring origin)
    then removelast ring else ring in
  inRing_loop pt (last ring' origin) ring' ignoreBoundary false.

(** [booleanPointInPolygon(pt, polygon, {ignoreBoundary})]: inside the
    exterior ring and in none of the holes. *)
Definition booleanPointInPolygon (pt : Position) (p : Polygon)
           (ignoreBoundary : bool) : bool :=
  if inRing pt (exterior p) ignoreBoundary
  then negb (existsb (fun h => inRing pt h (negb ignoreBoundary)) (holes p))
  else false.

End Turf.

(** ** [src/lib] helpers: sampler, units, elevation *)

(** The outcome of running a loop that has no bound of its own: it
    returns, throws, or is still running when the fuel is used up. *)
Inductive Run (A : Type) : Type :=
| Returned (a : A)
| Thrown (message : string)
| Running.
Arguments Returned {A} a.
Arguments Thrown {A} message.
Arguments Running {A}.

(** The [while (points.length < count)] loop.  [random k] is the value of
    the [k]-th call of [Math.random()]; every iteration makes two calls. *)
Fixpoint sample_loop (fuel : nat) (random : nat -> number) (k : nat)
         (turfPolygon : Polygon) (bbox : Turf.BBox) (count : Z)
         (points : list Position) : option (list Position) :=
  if (Z.of_nat (length points) <? count)%Z then
    match fuel with
    | O => None
    | S fuel' =>
        let lng := Turf.minX bbox + random k * (Turf.maxX bbox - Turf.minX bbox) in
        let lat := Turf.minY bbox + random (S k) * (Turf.maxY bbox - Turf.minY bbox) in
        let point := (lng, lat) in
        if Turf.booleanPointInPolygon point turfPolygon false
        then sample_loop fuel' random (S (S k)) turfPolygon bbox count (points ++ [(lng, lat)])
        else sample_loop fuel' random (S (S k)) turfPolygon bbox count points
    end
  else Some points.

Definition generateRandomPointsInPolygon (fuel : nat) (random : nat -> number)
           (polygon : Polygon) (count : Z) : Run (list Position) :=
  let points := [] in
  match Turf.polygon polygon with
  | Throw m => Thrown m
  | Ok turfPolygon =>
      let bbox := Turf.bbox turfPolygon in
      match sample_loop fuel random 0 turfPolygon bbox count points with
      | Some points' => Returned points'
      | None => Running
      end
  end.

Definition kmToMiles (km : number) : number := km * (621371 # 1000000).

Definition metersToFeet (meters : number) : number := meters * (328084 # 100000).

(** The division and the multiplication are exact here, and each is
    rounded in the source: the value is the same only where both
    operations are exact in doubles. *)
Definition estimateElevationDifference (distanceInMeters : number) : number :=
  (distanceInMeters / 1000) * 10.

(** ** The environment of a run

    Everything the program gets from outside: the conversion of a number
    to text in a template literal, the access token, the network and
    [Math.random].  [fetch n url] is the outcome of the [n]-th request of
    a run; the provider may answer the same URL differently each time. *)

Module Api.

Record DirectionsRoute := mkDirectionsRoute {
  distance : number;
  duration : number;
  geometry_coordinates : list Position
}.

Record Feature := mkFeature { geometry : Polygon }.

(** The fields the program reads from a decoded response body:
    [routes] of a directions response (absent in other bodies) and
    [features] of a feature collection. *)
Record Json := mkJson {
  routes : option (list DirectionsRoute);
  features : list Feature
}.

Record Response := mkResponse {
  ok : bool;
  status : number;
  statusText : string;
  text : Result string;      (* await response.text(): rejects when the body cannot be read *)
  json : Result Json         (* await response.json(): rejects on a body that cannot be decoded *)
}.

Inductive Fetch : Type :=
| Rejects (message : string)
| Resolves (response : Response).

End Api.

Record Env := mkEnv {
  numberToString : number -> string;
  MAPBOX_ACCESS_TOKEN : string;
  fetch : nat -> string -> Api.Fetch;
  random : nat -> number
}.

(** ** [src/lib/mapbox-api.ts] *)

Inductive Profile := walking | cycling | driving.

Definition profile_string (p : Profile) : string :=
  match p with
  | walking => "walking"
  | cycling => "cycling"
  | driving => "driving"
  end.

(** [Array.prototype.join] *)
Fixpoint join (sep : string) (parts : list string) : string :=
  match parts with
  | [] => ""
  | [p] => p
  | p :: rest => p ++ sep ++ join sep rest
  end.

Section MapboxApi.

Variable env : Env.

Let str := numberToString env.

Definition isochroneUrl (lng lat minutes : number) : string :=
  let profile := "walking" in
  "https://api.mapbox.com/isochrone/v1/mapbox/" ++ profile ++ "/" ++ str lng ++ ","
    ++ str lat ++ "?contours_minutes=" ++ str minutes
    ++ "&polygons=true&access_token=" ++ MAPBOX_ACCESS_TOKEN env.

(** [n] is the number of the request in the run. *)
Definition getIsochrone (n : nat) (lng lat minutes : number) : Result Api.Json :=
  let url := isochroneUrl lng lat minutes in
  let attempt :=
    match fetch env n url with
    | Api.Rejects m => Throw m
    | Api.Resolves response =>
        if negb (Api.ok response) then
          match Api.text response with
          | Throw m => Throw m
          | Ok errorText =>
              Throw ("Failed to fetch isochrone: " ++ str (Api.status response) ++ " "
                     ++ Api.statusText response ++ " - " ++ errorText)
          end
        else Api.json response
    end in
  match attempt with
  | Ok data => Ok data
  | Throw message => Throw ("Failed to fetch isochrone: " ++ message)
  end.

Definition coordinatePair (c : Position) : string := str (fst c) ++ "," ++ str (snd c).

(** The array that is joined into the path of the directions URL:
    start, all waypoints, and start again. *)
Definition directionsCoordinates (start : Position) (waypoints : list Position)
  : list string :=
  [coordinatePair start] ++ map coordinatePair waypoints ++ [coordinatePair start].

Definition directionsUrl (start : Position) (waypoints : list Position)
           (profile : Profile) : string :=
  let coordinates := join ";" (directionsCoordinates start waypoints) in
  "https://api.mapbox.com/directions/v5/mapbox/" ++ profile_string profile ++ "/"
    ++ coordinates ++ "?geometries=geojson&steps=true&alternatives=false&access_token="
    ++ MAPBOX_ACCESS_TOKEN env.

Definition getDirections (n : nat) (start : Position) (waypoints : list Position)
           (profile : Profile) : Result Api.Json :=
  let url := directionsUrl start waypoints profile in
  let attempt :=
    match fetch env n url with
    | Api.Rejects m => Throw m
    | Api.Resolves response =>
        if negb (Api.ok response) then
          match Api.text response with
          | Throw m => Throw m
          | Ok errorText =>
              Throw ("Failed to fetch directions: " ++ str (Api.status response) ++ " "
                     ++ Api.statusText response ++ " - " ++ errorText)
          end
        else
          match Api.json response with
          | Throw m => Throw m
          | Ok data =>
              match Api.routes data with
              | None | Some [] => Throw "No routes found for the given waypoints"
              | Some (_ :: _) => Ok data
              end
          end
    end in
  match attempt with
  | Ok data => Ok data
  | Throw message => Throw ("Failed to fetch directions: " ++ message)
  end.

End MapboxApi.

(** ** [src/lib/types.ts]: [Route] *)

Record Route := mkRoute {
  id : nat;
  distance : number;
  duration : number;
  route_coordinates : list Position;
  waypoints : option (list Position);
  elevationDifference : option number
}.

(** ** [src/components/map-component.tsx] *)

(** The part of the [mapboxgl.Map] the component changes: its layers and
    its sources.  A layer is kept with its id, its source and its
    [visibility]; paint properties and the camera are left out. *)
Record Layer := mkLayer {
  layer_id : string;
  layer_source : string;
  visible : bool
}.

Inductive SourceData :=
| FeatureCollectionData (data : Api.Json)
| LineStringData (line : list Position).

Record MapboxMap := mkMap {
  layers : list Layer;
  sources : list (string * SourceData)
}.

Record Marker := mkMarker {
  color : option string;
  lngLat : Position;
  displayed : bool
}.

(** The state of the component: the two refs it mutates ([map],
    [waypointMarkersRef]) and its [useState] cells.  [activeRouteIndex]
    holds the index its string denotes. *)
Record State := mkState {
  map_current : option MapboxMap;
  waypointMarkers : list Marker;
  lng : number;
  lat : number;
  loading : bool;
  isochroneData : option Api.Json;
  routes : list Route;
  activeRouteIndex : nat;
  error : option string;
  walkDuration : number;
  debugInfo : option string
}.

Definition set_map (m : option MapboxMap) (s : State) : State :=
  mkState m (waypointMarkers s) (lng s) (lat s) (loading s) (isochroneData s)
          (routes s) (activeRouteIndex s) (error s) (walkDuration s) (debugInfo s).
Definition set_waypointMarkers (ms : list Marker) (s : State) : State :=
  mkState (map_current s) ms (lng s) (lat s) (loading s) (isochroneData s)
          (routes s) (activeRouteIndex s) (error s) (walkDuration s) (debugInfo s).
Definition setLoading (b : bool) (s : State) : State :=
  mkState (map_current s) (waypointMarkers s) (lng s) (lat s) b (isochroneData s)
          (routes s) (activeRouteIndex s) (error s) (walkDuration s) (debugInfo s).
Definition setIsochroneData (d : option Api.Json) (s : State) : State :=
  mkState (map_current s) (waypointMarkers s) (lng s) (lat s) (loading s) d
          (routes s) (activeRouteIndex s) (error s) (walkDuration s) (debugInfo s).
Definition setRoutes (rs : list Route) (s : State) : State :=
  mkState (map_current s) (waypointMarkers s) (lng s) (lat s) (loading s) (isochroneData s)
          rs (activeRouteIndex s) (error s) (walkDuration s) (debugInfo s).
Definition setActiveRouteIndex (i : nat) (s : State) : State :=
  mkState (map_current s) (waypointMarkers s) (lng s) (lat s) (loading s) (isochroneData s)
          (routes s) i (error s) (walkDuration s) (debugInfo s).
Definition setError (e : option string) (s : State) : State :=
  mkState (map_current s) (waypointMarkers s) (lng s) (lat s) (loading s) (isochroneData s)
          (routes s) (activeRouteIndex s) e (walkDuration s) (debugInfo s).
Definition setDebugInfo (d : option string) (s : State) : State :=
  mkState (map_current s) (waypointMarkers s) (lng s) (lat s) (loading s) (isochroneData s)
          (routes s) (activeRouteIndex s) (error s) (walkDuration s) d.

Definition ROUTE_COLORS : list string := ["#ff6b6b"; "#48dbfb"; "#1dd1a1"].

(** *** The map's own operations *)

Definition removeLayer (id : string) (m : MapboxMap) : MapboxMap :=
  mkMap (filter (fun l => negb (String.eqb (layer_id l) id)) (layers m)) (sources m).

Definition removeSource (id : string) (m : MapboxMap) : MapboxMap :=
  mkMap (layers m) (filter (fun s => negb (String.eqb (fst s) id)) (sources m)).

Definition addSource (id : string) (d : SourceData) (m : MapboxMap) : MapboxMap :=
  mkMap (layers m) (sources m ++ [(id, d)]).

Definition addLayer (l : Layer) (m : MapboxMap) : MapboxMap :=
  mkMap (layers m ++ [l]) (sources m).

(** [map.current!.f(...)]: the ref holds a map wherever the component
    calls this (it returns early otherwise). *)
Definition onMap (f : MapboxMap -> MapboxMap) (s : State) : State :=
  match map_current s with
  | Some m => set_map (Some (f m)) s
  | None => s
  end.

(** [Math.max(Math.floor(walkDuration / 2), 5)] *)
Definition halfDuration (walkDuration : number) : number :=
  Qmax (inject_Z (Qfloor (walkDuration / 2))) 5.

Definition filterRoutesByDuration (routes : list Route) (maxDuration : number)
  : list Route :=
  let maxDurationSeconds := maxDuration * 60 in
  filter (fun route => Qle_bool (duration route) maxDurationSeconds) routes.

(** [for (let i = 0; i < randomPoints.length; i += 2)
       if (i + 1 < randomPoints.length) routeWaypoints.push(...)] *)
Fixpoint groupPairs (randomPoints : list Position) : list (list Position) :=
  match randomPoints with
  | p :: q :: rest => [p; q] :: groupPairs rest
  | _ => []
  end.

Section MapComponent.

Variable env : Env.

Let str := numberToString env.

Definition routeId (i : nat) : string := "route-" ++ str (inject_Z (Z.of_nat i)).

Definition clearRoute (m : MapboxMap) (i : nat) : MapboxMap :=
  removeSource (routeId i) (removeLayer (routeId i) m).

Definition clearMapLayers (s : State) : State :=
  match map_current s with
  | None => s
  | Some m =>
      let m := removeLayer "isochrone-fill" m in
      let m := removeLayer "isochrone-line" m in
      let m := removeSource "isochrone" m in
      let m := fold_left clearRoute (seq 0 10) m in
      set_waypointMarkers [] (set_map (Some m) s)
  end.

(** The loop over [routeWaypoints]: a request that throws is logged and
    the loop goes on with the next pair.  [n] numbers the request. *)
Fixpoint requestRoutes (start : Position) (n : nat)
         (routeWaypoints : list (list Position)) (routePromises : list Api.Json)
  : list Api.Json :=
  match routeWaypoints with
  | [] => routePromises
  | waypoints :: rest =>
      match getDirections env n start waypoints walking with
      | Ok result => requestRoutes start (S n) rest (routePromises ++ [result])
      | Throw _ => requestRoutes start (S n) rest routePromises
      end
  end.

(** [routePromises.forEach((response, index) => ...)] *)
Fixpoint processRoutes (routeWaypoints : list (list Position)) (index : nat)
         (routePromises : list Api.Json) (allRoutes : list Route)
  : Result (list Route) :=
  match routePromises with
  | [] => Ok allRoutes
  | response :: rest =>
      match Api.routes response with
      | Some (route :: _) =>
          let coordinates := Api.geometry_coordinates route in
          let elevationDifference := estimateElevationDifference (Api.distance route) in
          processRoutes routeWaypoints (S index) rest
            (allRoutes ++
               [mkRoute index (Api.distance route) (Api.duration route) coordinates
                        (nth_error routeWaypoints index) (Some elevationDifference)])
      | _ => Throw "TypeError: Cannot read properties of undefined"
      end
  end.

(** The body of [routesToAdd.map((route, index) => ...)].  [active] is
    [Number.parseInt(activeRouteIndex)], read from the render the
    callback was created in. *)
Fixpoint addRoutes (active : nat) (index : nat) (routesToAdd : list Route)
         (s : State) : State * Result unit :=
  match routesToAdd with
  | [] => (s, Ok tt)
  | route :: rest =>
      let s := onMap (addSource (routeId index) (LineStringData (route_coordinates route))) s in
      let s := onMap (addLayer (mkLayer (routeId index) (routeId index)
                                        (Nat.eqb index active))) s in
      match waypoints route with
      | Some (waypoint1 :: waypoint2 :: _) =>
          let shown := Nat.eqb index active in
          let marker1 := mkMarker (nth_error ROUTE_COLORS index) waypoint1 shown in
          let marker2 := mkMarker (nth_error ROUTE_COLORS index) waypoint2 shown in
          let s := set_waypointMarkers (waypointMarkers s ++ [marker1; marker2]) s in
          addRoutes active (S index) rest s
      | _ => (s, Throw "TypeError: Cannot read properties of undefined")
      end
  end.

Definition addRoutesToMap (active : nat) (routesToAdd : list Route) (s : State)
  : State * Result unit :=
  match map_current s with
  | None => (s, Ok tt)
  | Some _ =>
      match addRoutes active 0 routesToAdd s with
      | (s', Ok _) => (setRoutes routesToAdd s', Ok tt)
      | (s', Throw e) => (s', Throw e)
      end
  end.

(** Lines 316-333: filter, then report and show what is left. *)
Definition showRoutes (active : nat) (walkDuration : number) (allRoutes : list Route)
           (s : State) : State * Result unit :=
  let filteredRoutes := filterRoutesByDuration allRoutes walkDuration in
  if (length filteredRoutes <? 1)%nat then
    (setError (Some ("Could not find any routes within " ++ str walkDuration
                     ++ " minutes. Try increasing the duration or selecting a different starting point.")%string) s,
     Ok tt)
  else if (length filteredRoutes <? 3)%nat then
    let s := setError (Some ("Could only find "
                             ++ str (inject_Z (Z.of_nat (length filteredRoutes)))
                             ++ " routes within " ++ str walkDuration
                             ++ " minutes. Try increasing the duration.")%string) s in
    addRoutesToMap active filteredRoutes s
  else
    addRoutesToMap active (firstn 3 filteredRoutes) s.

(** The [try] block of [generateRoutes] up to [allRoutes] (lines
    231-314).  [snapshot] is the state of the render the callback closes
    over; [s] is the state as written so far.  The result is [None] while
    the sampler is still running, else the state reached with the
    assembled candidates, or with what was thrown. *)
Definition assembleRoutes (fuel : nat) (snapshot s : State)
  : option (State * Result (list Route)) :=
  let walkDuration := walkDuration snapshot in
  let halfDuration := halfDuration walkDuration in
  let s := setDebugInfo (Some ("Using " ++ str halfDuration ++ " min isochrone for "
                               ++ str walkDuration ++ " min total walk")%string) s in
  match getIsochrone env 0 (lng snapshot) (lat snapshot) halfDuration with
  | Throw e => Some (s, Throw e)
  | Ok isochroneResponse =>
      let s := setIsochroneData (Some isochroneResponse) s in
      let s := onMap (addSource "isochrone" (FeatureCollectionData isochroneResponse)) s in
      let s := onMap (addLayer (mkLayer "isochrone-fill" "isochrone" true)) s in
      let s := onMap (addLayer (mkLayer "isochrone-line" "isochrone" true)) s in
      match Api.features isochroneResponse with
      | [] => Some (s, Throw "TypeError: Cannot read properties of undefined")
      | feature :: _ =>
          let polygon := Api.geometry feature in
          match generateRandomPointsInPolygon fuel (random env) polygon 12 with
          | Running => None
          | Thrown e => Some (s, Throw e)
          | Returned randomPoints =>
              let routeWaypoints := groupPairs randomPoints in
              let routePromises :=
                requestRoutes (lng snapshot, lat snapshot) 1 routeWaypoints [] in
              Some (s, processRoutes routeWaypoints 0 routePromises [])
          end
      end
  end.

(** The whole [try] block: the candidates are filtered and shown. *)
Definition tryBlock (fuel : nat) (snapshot s : State) : option (State * Result unit) :=
  match assembleRoutes fuel snapshot s with
  | None => None
  | Some (s, Throw e) => Some (s, Throw e)
  | Some (s, Ok allRoutes) =>
      Some (showRoutes (activeRouteIndex snapshot) (walkDuration snapshot) allRoutes s)
  end.

(** Lines 219-228: the state is reset before the [try] block. *)
Definition startRun (s : State) : State :=
  let s := setLoading true s in
  let s := setError None s in
  let s := setDebugInfo None s in
  let s := setRoutes [] s in
  let s := setActiveRouteIndex 0 s in
  clearMapLayers s.

(** How a call of [generateRoutes] ended: by the early [return], at the
    end of the [try] block, or in the [catch] clause. *)
Inductive Exit : Type :=
| EarlyReturn
| Completed
| Caught (err : string).

(** [generateRoutes], with the way it ended next to the state it leaves. *)
Definition generateRoutes_exit (fuel : nat) (s : State) : option (State * Exit) :=
  match map_current s with
  | None =>
      Some (setError (Some "Map is not initialized. Please refresh the page and try again.") s,
            EarlyReturn)
  | Some _ =>
      let snapshot := s in
      let s := startRun s in
      match tryBlock fuel snapshot s with
      | None => None
      | Some (s, Ok _) => Some (setLoading false s, Completed)
      | Some (s, Throw err) =>
          let s := setError (Some ("Failed to generate routes: " ++ err)%string) s in
          Some (setLoading false s, Caught err)
      end
  end.

Definition generateRoutes (fuel : nat) (s : State) : option State :=
  option_map fst (generateRoutes_exit fuel s).

End MapComponent.

(** *** The handlers of the user's actions *)

Definition setLng (x : number) (s : State) : State :=
  mkState (map_current s) (waypointMarkers s) x (lat s) (loading s) (isochroneData s)
          (routes s) (activeRouteIndex s) (error s) (walkDuration s) (debugInfo s).
Definition setLat (y : number) (s : State) : State :=
  mkState (map_current s) (waypointMarkers s) (lng s) y (loading s) (isochroneData s)
          (routes s) (activeRouteIndex s) (error s) (walkDuration s) (debugInfo s).

(** [map.setLayoutProperty(id, "visibility", ...)] *)
Definition setLayoutProperty (id : string) (visibility : bool) (m : MapboxMap) : MapboxMap :=
  mkMap (map (fun l => if String.eqb (layer_id l) id
                       then mkLayer (layer_id l) (layer_source l) visibility
                       else l) (layers m))
        (sources m).

(** [array.forEach((x, index) => ...)] that rewrites each element. *)
Fixpoint mapi_from {A B : Type} (f : nat -> A -> B) (index : nat) (l : list A) : list B :=
  match l with
  | [] => []
  | x :: rest => f index x :: mapi_from f (S index) rest
  end.

(** [markerElement.style.display = ...] on the markers of route [i]:
    those with [Math.floor(markerIndex / 2) === i]. *)
Definition displayMarkers (i : nat) (display : bool) (markers : list Marker) : list Marker :=
  mapi_from (fun markerIndex marker =>
               if Nat.eqb (markerIndex / 2) i
               then mkMarker (color marker) (lngLat marker) display
               else marker) 0 markers.

Section Handlers.

Variable env : Env.

(** [handleMapClick]; [markerRef] is the marker of the starting point, if
    the map has loaded. *)
Definition handleMapClick (e : Position) (markerRef : option Position) (s : State)
  : State * option Position :=
  let '(lng, lat) := e in
  let s := setLng lng s in
  let s := setLat lat s in
  let markerRef :=
    match markerRef with
    | Some _ => Some (lng, lat)
    | None => None
    end in
  let s := clearMapLayers env s in
  let s := setIsochroneData None s in
  let s := setRoutes [] s in
  (s, markerRef).

(** The body of [routes.forEach((_, i) => ...)] in [showActiveRoute]. *)
Definition hideRoute (s : State) (i : nat) : State :=
  let s := onMap (setLayoutProperty (routeId env i) false) s in
  set_waypointMarkers (displayMarkers i false (waypointMarkers s)) s.

(** [showActiveRoute]; [index] is [Number.parseInt(routeIndex)]. *)
Definition showActiveRoute (index : nat) (s : State) : State :=
  match map_current s with
  | None => s
  | Some _ =>
      let s := fold_left hideRoute (seq 0 (length (routes s))) s in
      let s := onMap (setLayoutProperty (routeId env index) true) s in
      set_waypointMarkers (displayMarkers index true (waypointMarkers s)) s
  end.

Definition handleTabChange (value : nat) (s : State) : State :=
  let s := setActiveRouteIndex value s in
  showActiveRoute value s.

End Handlers.

(** ** A concrete environment for the examples *)

Module Example.

(** Integers are printed in decimal, as JavaScript prints them; other
    numbers as a fraction. *)
Definition showZ (z : Z) : string := NilZero.string_of_int (Z.to_int z).

Definition showNumber (q : number) : string :=
  let r := Qred q in
  if Pos.eqb (Qden r) 1 then showZ (Qnum r)
  else (showZ (Qnum r) ++ "/" ++ showZ (Zpos (Qden r)))%string.

(** A triangular isochrone around the origin. *)
Definition triangle : Polygon := mkPolygon [(0, 0); (2, 0); (0, 2); (0, 0)] [].

Definition isochroneBody : Api.Json := Api.mkJson None [Api.mkFeature triangle].

Definition isochroneReply : Api.Fetch :=
  Api.Resolves (Api.mkResponse true 200 "OK" (Ok "") (Ok isochroneBody)).

(** A directions reply with one route of the given duration. *)
Definition routeBody (seconds : number) : Api.Json :=
  Api.mkJson (Some [Api.mkDirectionsRoute 1000 seconds [(0, 0); (1, 0); (0, 0)]]) [].

Definition routeReply (seconds : number) : Api.Fetch :=
  Api.Resolves (Api.mkResponse true 200 "OK" (Ok "") (Ok (routeBody seconds))).

Definition unavailable : Api.Fetch :=
  Api.Resolves (Api.mkResponse false 503 "Service Unavailable" (Ok "upstream down") (Throw "")).

(** A reply with a success status whose body is a page of HTML, and a 503
    reply whose body is lost before it is read. *)
Definition notJson : Api.Fetch :=
  Api.Resolves (Api.mkResponse true 200 "OK" (Ok "<html>")
                               (Throw "Unexpected token < in JSON at position 0")).

Definition bodyLost : Api.Fetch :=
  Api.Resolves (Api.mkResponse false 503 "Service Unavailable" (Throw "terminated")
                               (Throw "terminated")).

(** A reachability reply with a success status and no feature. *)
Definition noFeatureReply : Api.Fetch :=
  Api.Resolves (Api.mkResponse true 200 "OK" (Ok "") (Ok (Api.mkJson None []))).

(** The draws [1/(k+2)]: every sampled point [(2/(k+2), 2/(k+3))] lies
    in the triangle, and no two of them are equal. *)
Definition draws (k : nat) : number := 1 # Pos.of_nat (k + 2).

(** The isochrone request succeeds; the first directions request fails
    and the later ones succeed, the [n]-th with a route of [n] minutes. *)
Definition firstRouteFails : Env :=
  mkEnv showNumber "pk.test"
        (fun n _ =>
           match n with
           | O => isochroneReply
           | 1%nat => unavailable
           | _ => routeReply (inject_Z (Z.of_nat n) * 60)
           end)
        draws.


(** The provider is down: every request is refused. *)
Definition providerDown : Env :=
  mkEnv showNumber "pk.test" (fun _ _ => Api.Rejects "Failed to fetch") draws.

(** Reachability works, every directions request fails. *)
Definition routingDown : Env :=
  mkEnv showNumber "pk.test"
        (fun n _ => match n with O => isochroneReply | _ => unavailable end)
        draws.

(** Reachability works; the directions requests get a page of HTML, or a
    503 reply whose body is lost. *)
Definition routingGarbled : Env :=
  mkEnv showNumber "pk.test"
        (fun n _ => match n with O => isochroneReply | _ => notJson end)
        draws.

Definition routingBodyLost : Env :=
  mkEnv showNumber "pk.test"
        (fun n _ => match n with O => isochroneReply | _ => bodyLost end)
        draws.

(** The reachability request is answered without a feature. *)
Definition nothingReachable : Env :=
  mkEnv showNumber "pk.test"
        (fun n _ => match n with O => noFeatureReply | _ => routeReply 600 end)
        draws.


(** A polygon without area: its ring runs along the diagonal and back. *)
Definition sliver : Polygon := mkPolygon [(0, 0); (1, 1); (2, 2); (0, 0)] [].

(** Draws that never meet the diagonal: every point drawn is [(1/2, 3/2)]. *)
Definition offDiagonal (k : nat) : number := if Nat.even k then 1 # 4 else 3 # 4.

(** Draws that miss the triangle [bound] times and then hit it. *)
Definition lateHit (bound k : nat) : number :=
  if (k <? 2 * bound)%nat then 3 # 4 else 1 # 4.

(** Five candidates, the second one longer than thirty minutes. *)
Definition candidate (i : nat) (seconds : number) : Route :=
  mkRoute i 1000 seconds [(0, 0); (1, 0); (0, 0)] (Some [(1, 0); (0, 1)]) (Some 10).

Definition candidates : list Route :=
  [candidate 0 600; candidate 1 2400; candidate 2 900; candidate 3 1800; candidate 4 1200].

(** The twelve points the sampler draws with [draws], and their pairs. *)
Definition sampled : list Position :=
  match generateRandomPointsInPolygon 12 draws triangle 12 with
  | Returned points => points
  | _ => []
  end.

Definition pairs : list (list Position) := groupPairs sampled.

Definition emptyMap : MapboxMap := mkMap [] [].

Definition initial : State :=
  mkState (Some emptyMap) [] 0 0 false None [] 0 None 30 None.

(** The state after a successful run that found one route. *)
Definition showingOneRoute : State :=
  mkState
    (Some (mkMap [mkLayer "isochrone-fill" "isochrone" true;
                  mkLayer "isochrone-line" "isochrone" true;
                  mkLayer "route-0" "route-0" true]
                 [("isochrone", FeatureCollectionData isochroneBody);
                  ("route-0", LineStringData [(0, 0); (1, 0); (0, 0)])]))
    [mkMarker (Some "#ff6b6b") (1, 0) true; mkMarker (Some "#ff6b6b") (0, 1) true]
    0 0 false (Some isochroneBody) [candidate 0 600] 0
    (Some "Could only find 1 routes within 30 minutes. Try increasing the duration.")
    30 (Some "Using 15 min isochrone for 30 min total walk").

End Example.

(** ** Notions used in the statements *)

(** [part] occurs in [whole]. *)
Definition includes (part whole : string) : Prop :=
  exists before after, whole = (before ++ part ++ after)%string.

(** [xs] is [ys] with some elements left out, the others in their order. *)
Inductive subseq {A : Type} : list A -> list A -> Prop :=
| subseq_nil : subseq [] []
| subseq_skip x xs ys : subseq xs ys -> subseq xs (x :: ys)
| subseq_keep x xs ys : subseq xs ys -> subseq (x :: xs) (x :: ys).

(** A candidate with its two waypoints. *)
Definition has_pair (r : Route) : Prop :=
  exists p q rest, waypoints r = Some (p :: q :: rest).









(** [includes] as a test. *)
Fixpoint includesb (part whole : string) : bool :=
  String.prefix part whole
  || match whole with
     | EmptyString => false
     | String _ rest => includesb part rest
     end.

(** Reading a URL path back, as the provider does: [split_on sep s] is
    [s.split(sep)], and a rendered number is [plain] when it holds neither
    of the separators [","] and [";"]. *)
Fixpoint has_char (c : ascii) (s : string) : bool :=
  match s with
  | EmptyString => false
  | String c' rest => Ascii.eqb c' c || has_char c rest
  end.

Fixpoint split_on (sep : ascii) (s : string) : list string :=
  match s with
  | EmptyString => [EmptyString]
  | String c rest =>
      if Ascii.eqb c sep then EmptyString :: split_on sep rest
      else match split_on sep rest with
           | [] => [String c EmptyString]
           | h :: t => String c h :: t
           end
  end.

Definition plain (s : string) : bool :=
  negb (has_char "," s) && negb (has_char ";" s).

(** How the exchange with the provider went, read off the outcome of
    [fetch]: the transport failed (the request was rejected, no reply was
    received), the reply has a non-success status, the body of a success
    reply could not be decoded, or it was decoded and holds no route. *)
Definition fetch_rejected (f : Api.Fetch) : Prop :=
  match f with
  | Api.Rejects _ => True
  | Api.Resolves _ => False
  end.

Definition body_undecodable (f : Api.Fetch) : Prop :=
  match f with
  | Api.Rejects _ => False
  | Api.Resolves r => Api.ok r = true /\ exists m, Api.json r = Throw m
  end.

Definition non_success_status (f : Api.Fetch) : Prop :=
  match f with
  | Api.Rejects _ => False
  | Api.Resolves r => Api.ok r = false
  end.

Definition zero_routes (f : Api.Fetch) : Prop :=
  match f with
  | Api.Rejects _ => False
  | Api.Resolves r =>
      Api.ok r = true /\
      exists data, Api.json r = Ok data /\ (Api.routes data = None \/ Api.routes data = Some [])
  end.

(** The waypoint pairs whose directions request returned a route, each
    with the response it got, in the order of the requests; [n] is the
    number of the first request. *)
Fixpoint answered (env : Env) (start : Position) (n : nat)
         (routeWaypoints : list (list Position)) : list (list Position * Api.Json) :=
  match routeWaypoints with
  | [] => []
  | waypoints :: rest =>
      match getDirections env n start waypoints walking with
      | Ok result => (waypoints, result) :: answered env start (S n) rest
      | Throw _ => answered env start (S n) rest
      end
  end.

Definition answeredPairs (env : Env) (start : Position) (n : nat)
           (routeWaypoints : list (list Position)) : list (list Position) :=
  map fst (answered env start n routeWaypoints).

(** A directions response with a first route. *)
Definition has_route (data : Api.Json) : Prop :=
  exists route rest, Api.routes data = Some (route :: rest).

(** The ids of the layers and of the sources on the map. *)
Definition layer_ids (s : State) : list string :=
  match map_current s with
  | Some m => map layer_id (layers m)
  | None => []
  end.

Definition source_ids (s : State) : list string :=
  match map_current s with
  | Some m => map fst (sources m)
  | None => []
  end.

(** The layers and the sources on the map. *)
Definition layers_of (s : State) : list Layer :=
  match map_current s with
  | Some m => layers m
  | None => []
  end.

Definition sources_of (s : State) : list (string * SourceData) :=
  match map_current s with
  | Some m => sources m
  | None => []
  end.

(** The ids [clearMapLayers] removes. *)
Definition clearedLayerIds (env : Env) : list string :=
  ["isochrone-fill"; "isochrone-line"]%string ++ map (routeId env) (seq 0 10).

Definition clearedSourceIds (env : Env) : list string :=
  ["isochrone"]%string ++ map (routeId env) (seq 0 10).

Definition keptId (cleared : list string) (id : string) : bool :=
  negb (existsb (String.eqb id) cleared).

(** The layer, the source and the two markers of the route at [index]. *)
Definition routeLayer (env : Env) (active index : nat) : Layer :=
  mkLayer (routeId env index) (routeId env index) (Nat.eqb index active).

Definition routeSource (env : Env) (index : nat) (r : Route) : string * SourceData :=
  (routeId env index, LineStringData (route_coordinates r)).

Definition routeMarkers (active index : nat) (r : Route) : list Marker :=
  match waypoints r with
  | Some (p :: q :: _) =>
      [mkMarker (nth_error ROUTE_COLORS index) p (Nat.eqb index active);
       mkMarker (nth_error ROUTE_COLORS index) q (Nat.eqb index active)]
  | _ => []
  end.

(** The cells a function leaves alone. *)
Definition same_cells (s s' : State) : Prop :=
  lng s' = lng s /\ lat s' = lat s /\ loading s' = loading s
  /\ isochroneData s' = isochroneData s /\ activeRouteIndex s' = activeRouteIndex s
  /\ walkDuration s' = walkDuration s /\ debugInfo s' = debugInfo s.

(** The points of the bounding box. *)
Definition in_bbox (pt : Position) (b : Turf.BBox) : Prop :=
  Turf.minX b <= fst pt /\ fst pt <= Turf.maxX b
  /\ Turf.minY b <= snd pt /\ snd pt <= Turf.maxY b.

(** The point an iteration draws from calls [k] and [k+1] of [Math.random]. *)
Definition drawn (random : nat -> number) (k : nat) (bbox : Turf.BBox) : Position :=
  (Turf.minX bbox + random k * (Turf.maxX bbox - Turf.minX bbox),
   Turf.minY bbox + random (S k) * (Turf.maxY bbox - Turf.minY bbox)).

(** ** Properties *)

(** *** Half duration *)

Lemma Qmax_inject_Z (a b : Z) : Qmax (inject_Z a) (inject_Z b) = inject_Z (Z.max a b).
Proof.
  unfold Qmax, GenericMinMax.gmax, Z.max, Qcompare, inject_Z. simpl.
  rewrite !Z.mul_1_r. destruct (a ?= b)%Z; reflexivity.
Qed.

Lemma Qfloor_half (n : Z) : Qfloor (inject_Z n / 2) = (n / 2)%Z.
Proof.
  unfold Qfloor, Qdiv, Qmult, Qinv, inject_Z. simpl. rewrite Z.mul_1_r. reflexivity.
Qed.

(** C6: for every total duration [d] the reachability query uses
    [max(floor(d/2), 5)] minutes; on an integer [n] that is
    [max(n div 2, 5)], and 30, 8, 10 and 90 give 15, 5, 5 and 45. *)
Theorem halfDuration_is_max_floor_half_5 :
  forall d : number,
    halfDuration d = inject_Z (Z.max (Qfloor (d / 2)) 5)
    /\ (forall n : Z, halfDuration (inject_Z n) = inject_Z (Z.max (n / 2) 5))
    /\ halfDuration 30 = 15 /\ halfDuration 8 = 5
    /\ halfDuration 10 = 5 /\ halfDuration 90 = 45.
Proof.
  intros d. split; [| split].
  - unfold halfDuration. apply (Qmax_inject_Z (Qfloor (d / 2)) 5).
  - intros n. unfold halfDuration. rewrite Qfloor_half. apply (Qmax_inject_Z (n / 2) 5).
  - repeat split; reflexivity.
Qed.

(** *** Units and elevation *)

(** Five kilometres give an estimated elevation difference of 50. *)
Lemma estimateElevationDifference_5000 : estimateElevationDifference 5000 == 50.
Proof. reflexivity. Qed.

(** *** The directions request *)

Lemma includes_intro (before part after : string) :
  includes part (before ++ part ++ after)%string.
Proof. exists before, after. reflexivity. Qed.

Lemma append_assoc (a b c : string) : ((a ++ b) ++ c = a ++ (b ++ c))%string.
Proof. induction a as [| ch a IH]; simpl; [reflexivity | now rewrite IH]. Qed.

Lemma append_empty_r (a : string) : (a ++ "" = a)%string.
Proof. induction a as [| ch a IH]; simpl; [reflexivity | now rewrite IH]. Qed.

Lemma includes_prefixed (part whole before : string) :
  includes part whole -> includes part (before ++ whole)%string.
Proof.
  intros (b & a & ->). exists (before ++ b)%string, a. now rewrite append_assoc.
Qed.

Lemma includes_suffixed (part whole after : string) :
  includes part whole -> includes part (whole ++ after)%string.
Proof.
  intros (b & a & ->). exists b, (a ++ after)%string. now rewrite !append_assoc.
Qed.

Lemma includes_refl (s : string) : includes s s.
Proof. exists ""%string, ""%string. simpl. now rewrite append_empty_r. Qed.

Lemma has_char_app (c : ascii) (a b : string) :
  has_char c (a ++ b) = has_char c a || has_char c b.
Proof.
  induction a as [| c' a IH]; cbn [append has_char]; [reflexivity |].
  rewrite IH. apply orb_assoc.
Qed.

Lemma split_on_plain (sep : ascii) (a : string) :
  has_char sep a = false -> split_on sep a = [a].
Proof.
  induction a as [| c a IH]; cbn [has_char split_on]; [reflexivity |].
  intros H. apply orb_false_iff in H as (Hc & Ha). rewrite Hc, (IH Ha). reflexivity.
Qed.

Lemma split_on_app (sep : ascii) (a b : string) :
  has_char sep a = false ->
  split_on sep (a ++ String sep b) = a :: split_on sep b.
Proof.
  induction a as [| c a IH]; cbn [append has_char split_on].
  - intros _. rewrite Ascii.eqb_refl. reflexivity.
  - intros H. apply orb_false_iff in H as (Hc & Ha). rewrite Hc, (IH Ha). reflexivity.
Qed.

(** Splitting undoes [join] when no part holds the separator. *)
Lemma split_on_join (sep : ascii) (parts : list string) :
  Forall (fun p => has_char sep p = false) parts ->
  parts <> [] ->
  split_on sep (join (String sep "") parts) = parts.
Proof.
  induction parts as [| p rest IH]; [congruence |]. intros Hall _.
  inversion Hall as [| p' rest' Hp Hrest]; subst.
  destruct rest as [| q rest].
  - cbn [join]. now apply (@split_on_plain sep p).
  - change (join (String sep "") (p :: q :: rest))
      with (p ++ String sep (join (String sep "") (q :: rest)))%string.
    rewrite (@split_on_app sep p _ Hp). f_equal. apply IH; [exact Hrest | discriminate].
Qed.

Lemma plain_parts (s : string) :
  plain s = true -> has_char "," s = false /\ has_char ";" s = false.
Proof.
  unfold plain. intros H. apply andb_true_iff in H as (H1 & H2).
  split; [now destruct (has_char "," s) | now destruct (has_char ";" s)].
Qed.

(** A rendered pair reads back as its two numbers, and holds no [";"]. *)
Lemma coordinatePair_reads_back (env : Env) (c : Position) :
  plain (numberToString env (fst c)) = true ->
  plain (numberToString env (snd c)) = true ->
  split_on "," (coordinatePair env c) = [numberToString env (fst c); numberToString env (snd c)]
  /\ has_char ";" (coordinatePair env c) = false.
Proof.
  intros Hx Hy. apply plain_parts in Hx as (Hx1 & Hx2). apply plain_parts in Hy as (Hy1 & Hy2).
  unfold coordinatePair. split.
  - change ("," ++ numberToString env (snd c))%string
      with (String "," (numberToString env (snd c))).
    rewrite (@split_on_app "," _ _ Hx1), (@split_on_plain "," _ Hy1). reflexivity.
  - rewrite !has_char_app, Hx2, Hy2. reflexivity.
Qed.

(** The directions request of an environment depends on the network only
    through the reply to its URL. *)
Lemma getDirections_fetches_its_url (env env' : Env) (n : nat) (start : Position)
      (waypoints : list Position) (profile : Profile) :
  numberToString env' = numberToString env ->
  MAPBOX_ACCESS_TOKEN env' = MAPBOX_ACCESS_TOKEN env ->
  fetch env' n (directionsUrl env start waypoints profile)
  = fetch env n (directionsUrl env start waypoints profile) ->
  getDirections env' n start waypoints profile = getDirections env n start waypoints profile.
Proof.
  intros Hstr Htoken Hfetch.
  assert (Hurl : directionsUrl env' start waypoints profile
                 = directionsUrl env start waypoints profile).
  { unfold directionsUrl, directionsCoordinates, coordinatePair.
    rewrite Hstr, Htoken. reflexivity. }
  unfold getDirections. rewrite Hurl, Hfetch, Hstr. reflexivity.
Qed.

(** C7: the coordinate sequence of a directions request is the start,
    then the waypoints in their order, then the start again, each
    rendered as [lng,lat]; its first and last elements are the same; the
    sequence, joined with [";"], is the path of the URL, and the outcome
    of the request is that of fetching this URL.  Read back by splitting
    the path at [";"] and each pair at [","], the URL gives the numbers of
    the start, of the waypoints in their order and of the start again,
    as long as no rendered number holds a separator. *)
Theorem directions_request_is_round_trip :
  forall (env : Env) (start : Position) (waypoints : list Position) (profile : Profile),
    let str := numberToString env in
    let coords := directionsCoordinates env start waypoints in
    let path := join ";" coords in
    let url := directionsUrl env start waypoints profile in
    coords = map (coordinatePair env) (start :: waypoints ++ [start])
    /\ (forall c, coordinatePair env c = (str (fst c) ++ "," ++ str (snd c))%string)
    /\ hd_error coords = Some (coordinatePair env start)
    /\ last coords ""%string = coordinatePair env start
    /\ length coords = S (S (length waypoints))
    /\ url = ("https://api.mapbox.com/directions/v5/mapbox/" ++ profile_string profile
              ++ "/" ++ path
              ++ "?geometries=geojson&steps=true&alternatives=false&access_token="
              ++ MAPBOX_ACCESS_TOKEN env)%string
    /\ ((forall c, In c (start :: waypoints) ->
                   plain (str (fst c)) = true /\ plain (str (snd c)) = true) ->
        map (split_on ",") (split_on ";" path)
        = map (fun c => [str (fst c); str (snd c)]) (start :: waypoints ++ [start]))
    /\ (forall env' n,
          numberToString env' = numberToString env ->
          MAPBOX_ACCESS_TOKEN env' = MAPBOX_ACCESS_TOKEN env ->
          fetch env' n url = fetch env n url ->
          getDirections env' n start waypoints profile
          = getDirections env n start waypoints profile).
Proof.
  intros env start waypoints profile str coords path url.
  assert (Hcoords : coords = map (coordinatePair env) (start :: waypoints ++ [start])).
  { subst coords. unfold directionsCoordinates. cbn [app map]. now rewrite map_app. }
  split; [exact Hcoords |]. split; [reflexivity |].
  split; [reflexivity |]. split.
  { subst coords. unfold directionsCoordinates. cbn [app].
    apply last_last with (l := coordinatePair env start :: map (coordinatePair env) waypoints). }
  split.
  { rewrite Hcoords, length_map. cbn [length]. rewrite length_app. cbn [length]. lia. }
  split; [reflexivity |]. split.
  - intros Hplain.
    assert (Hall : forall c, In c (start :: waypoints ++ [start]) ->
                             plain (str (fst c)) = true /\ plain (str (snd c)) = true).
    { intros c [<- | Hc]; [apply Hplain; now left |].
      apply in_app_or in Hc as [Hc | [<- | []]]; apply Hplain; [now right | now left]. }
    subst path. rewrite Hcoords.
    rewrite (@split_on_join ";"%char).
    + rewrite map_map. apply map_ext_in. intros c Hc.
      destruct (Hall c Hc) as (Hx & Hy).
      apply (proj1 (@coordinatePair_reads_back env c Hx Hy)).
    + apply Forall_forall. intros p Hp. apply in_map_iff in Hp as (c & <- & Hc).
      destruct (Hall c Hc) as (Hx & Hy).
      apply (proj2 (@coordinatePair_reads_back env c Hx Hy)).
    + discriminate.
  - intros env' n. apply getDirections_fetches_its_url.
Qed.

(** C7 on the start [(-74, 41)] with the waypoints [(-73, 40)] and
    [(-75, 42)], and with no waypoint. *)
Lemma directions_request_is_round_trip_witness :
  directionsUrl Example.routingDown (-74, 41) [(-73, 40); (-75, 42)] walking
  = "https://api.mapbox.com/directions/v5/mapbox/walking/-74,41;-73,40;-75,42;-74,41?geometries=geojson&steps=true&alternatives=false&access_token=pk.test"
  /\ map (split_on ",") (split_on ";" "-74,41;-73,40;-75,42;-74,41")
     = [["-74"; "41"]; ["-73"; "40"]; ["-75"; "42"]; ["-74"; "41"]]
  /\ directionsUrl Example.routingDown (-74, 41) [] walking
     = "https://api.mapbox.com/directions/v5/mapbox/walking/-74,41;-74,41?geometries=geojson&steps=true&alternatives=false&access_token=pk.test"
  /\ map (split_on ",") (split_on ";" "-74,41;-74,41") = [["-74"; "41"]; ["-74"; "41"]].
Proof.
  destruct (directions_request_is_round_trip
              Example.routingDown (-74, 41) [(-73, 40); (-75, 42)] walking)
    as (_ & _ & _ & _ & _ & Hurl & Hread & _).
  destruct (directions_request_is_round_trip Example.routingDown (-74, 41) [] walking)
    as (_ & _ & _ & _ & _ & Hurl0 & Hread0 & _).
  split; [exact Hurl |]. split.
  - apply Hread. intros c [<- | [<- | [<- | []]]]; split; reflexivity.
  - split; [exact Hurl0 |].
    apply Hread0. intros c [<- | []]; split; reflexivity.
Defined.

Lemma getDirections_cases (env : Env) (n : nat) (start : Position)
      (waypoints : list Position) (profile : Profile) :
  match fetch env n (directionsUrl env start waypoints profile) with
  | Api.Rejects m =>
      getDirections env n start waypoints profile
      = Throw ("Failed to fetch directions: " ++ m)
  | Api.Resolves r =>
      if Api.ok r then
        match Api.json r with
        | Throw m =>
            getDirections env n start waypoints profile
            = Throw ("Failed to fetch directions: " ++ m)
        | Ok data =>
            match Api.routes data with
            | Some (_ :: _) => getDirections env n start waypoints profile = Ok data
            | _ =>
                getDirections env n start waypoints profile
                = Throw "Failed to fetch directions: No routes found for the given waypoints"
            end
        end
      else
        match Api.text r with
        | Ok body =>
            getDirections env n start waypoints profile
            = Throw ("Failed to fetch directions: "
                     ++ ("Failed to fetch directions: " ++ numberToString env (Api.status r)
                         ++ " " ++ Api.statusText r ++ " - " ++ body))
        | Throw reason =>
            getDirections env n start waypoints profile
            = Throw ("Failed to fetch directions: " ++ reason)
        end
  end.
Proof.
  unfold getDirections.
  destruct (fetch env n (directionsUrl env start waypoints profile)) as [m | r];
    [reflexivity |].
  destruct (Api.ok r); cbn [negb]; [| destruct (Api.text r); reflexivity].
  destruct (Api.json r) as [data | m]; [| reflexivity].
  destruct (Api.routes data) as [[| route rest] |]; reflexivity.
Qed.

Lemma getIsochrone_non_success (env : Env) (n : nat) (lng lat minutes : number)
      (r : Api.Response) :
  fetch env n (isochroneUrl env lng lat minutes) = Api.Resolves r ->
  Api.ok r = false ->
  match Api.text r with
  | Ok body =>
      getIsochrone env n lng lat minutes
      = Throw ("Failed to fetch isochrone: "
               ++ ("Failed to fetch isochrone: " ++ numberToString env (Api.status r)
                   ++ " " ++ Api.statusText r ++ " - " ++ body))
  | Throw reason =>
      getIsochrone env n lng lat minutes = Throw ("Failed to fetch isochrone: " ++ reason)
  end.
Proof.
  intros Hreply Hok. unfold getIsochrone. rewrite Hreply, Hok. cbn [negb].
  destruct (Api.text r); reflexivity.
Qed.

Lemma includes_status_and_body (prefix status statusText body : string) :
  includes status (prefix ++ (prefix ++ status ++ " " ++ statusText ++ " - " ++ body))
  /\ includes body (prefix ++ (prefix ++ status ++ " " ++ statusText ++ " - " ++ body)).
Proof.
  split.
  - do 2 apply includes_prefixed. apply includes_suffixed. apply includes_refl.
  - do 6 apply includes_prefixed. apply includes_refl.
Qed.

Lemma prefix_append (part after : string) : String.prefix part (part ++ after) = true.
Proof.
  induction part as [| c part IH]; cbn; [destruct after; reflexivity |].
  destruct (ascii_dec c c); [exact IH | congruence].
Qed.

Lemma includes_includesb (part whole : string) :
  includes part whole -> includesb part whole = true.
Proof.
  intros (before & after & ->). induction before as [| c before IH].
  - cbn [append]. destruct (part ++ after)%string eqn:E; cbn [includesb];
      rewrite <- E, prefix_append; reflexivity.
  - cbn [append includesb]. rewrite IH. apply orb_true_r.
Qed.

(** C8: [getDirections] throws exactly when [fetch] was rejected, the
    reply has a non-success status, the body of a success reply cannot be
    decoded, or the decoded body holds no route.  On a non-success status
    whose body text can be read, the message of the error includes the
    status and the body text, for [getDirections] and for [getIsochrone];
    if reading the body text fails, the message is the reason of that
    failure behind the prefix, without status or body text. *)
Theorem getDirections_throws_iff_no_route_obtained :
  forall (env : Env) (n : nat) (start : Position) (waypoints : list Position)
         (profile : Profile),
    let reply := fetch env n (directionsUrl env start waypoints profile) in
    ((exists message, getDirections env n start waypoints profile = Throw message)
     <-> fetch_rejected reply \/ non_success_status reply
         \/ body_undecodable reply \/ zero_routes reply)
    /\ (forall r, reply = Api.Resolves r -> Api.ok r = false ->
        (forall body, Api.text r = Ok body ->
           exists message,
             getDirections env n start waypoints profile = Throw message
             /\ message = ("Failed to fetch directions: Failed to fetch directions: "
                           ++ numberToString env (Api.status r) ++ " " ++ Api.statusText r
                           ++ " - " ++ body)%string
             /\ includes (numberToString env (Api.status r)) message
             /\ includes body message)
        /\ (forall reason, Api.text r = Throw reason ->
              getDirections env n start waypoints profile
              = Throw ("Failed to fetch directions: " ++ reason)))
    /\ (forall lng lat minutes r,
          fetch env n (isochroneUrl env lng lat minutes) = Api.Resolves r ->
          Api.ok r = false ->
          (forall body, Api.text r = Ok body ->
             exists message,
               getIsochrone env n lng lat minutes = Throw message
               /\ message = ("Failed to fetch isochrone: Failed to fetch isochrone: "
                             ++ numberToString env (Api.status r) ++ " " ++ Api.statusText r
                             ++ " - " ++ body)%string
               /\ includes (numberToString env (Api.status r)) message
               /\ includes body message)
          /\ (forall reason, Api.text r = Throw reason ->
                getIsochrone env n lng lat minutes
                = Throw ("Failed to fetch isochrone: " ++ reason))).
Proof.
  intros env n start waypoints profile reply.
  pose proof (getDirections_cases env n start waypoints profile) as Hc.
  fold reply in Hc. split; [| split].
  - destruct reply as [m | r]; cbn.
    + split; [intros _; left; exact I | intros _; eexists; exact Hc].
    + destruct (Api.ok r) eqn:Hok.
      * destruct (Api.json r) as [data | m] eqn:Hj.
        -- destruct (Api.routes data) as [[| route rest] |] eqn:Hr.
           ++ split; [intros _ | intros _; eexists; exact Hc].
              right; right; right. split; [reflexivity |]. exists data. rewrite Hr. auto.
           ++ split.
              ** intros (message & Hm). rewrite Hc in Hm. discriminate.
              ** intros [[] | [Hf | [(_ & m & Hm) | (_ & d & Hd & Hz)]]]; try discriminate.
                 inversion Hd; subst d. rewrite Hr in Hz. destruct Hz; discriminate.
           ++ split; [intros _ | intros _; eexists; exact Hc].
              right; right; right. split; [reflexivity |]. exists data. rewrite Hr. auto.
        -- split; [intros _ | intros _; eexists; exact Hc].
           right; right; left. split; [reflexivity |]. exists m. reflexivity.
      * split; [intros _; right; left; reflexivity |].
        intros _. destruct (Api.text r); eexists; exact Hc.
  - intros r Hreply Hok. rewrite Hreply in Hc. rewrite Hok in Hc. split.
    + intros body Hbody. rewrite Hbody in Hc. eexists. split; [exact Hc |].
      split; [reflexivity |].
      apply (includes_status_and_body "Failed to fetch directions: ").
    + intros reason Hreason. rewrite Hreason in Hc. exact Hc.
  - intros lng lat minutes r Hreply Hok.
    pose proof (getIsochrone_non_success env n lng lat minutes Hreply Hok) as Hi. split.
    + intros body Hbody. rewrite Hbody in Hi. eexists. split; [exact Hi |].
      split; [reflexivity |].
      apply (includes_status_and_body "Failed to fetch isochrone: ").
    + intros reason Hreason. rewrite Hreason in Hi. exact Hi.
Qed.

(** C8 on a 503 reply with the body text [upstream down]. *)
Lemma getDirections_throws_witness :
  exists message,
    getDirections Example.routingDown 1 (0, 0) [(1, 0); (0, 1)] walking = Throw message
    /\ message = "Failed to fetch directions: Failed to fetch directions: 503 Service Unavailable - upstream down"
    /\ includes "503" message /\ includes "upstream down" message.
Proof.
  exact (proj1 (proj1 (proj2 (getDirections_throws_iff_no_route_obtained
                                Example.routingDown 1 (0, 0) [(1, 0); (0, 1)] walking))
                      _ eq_refl eq_refl)
               "upstream down" eq_refl).
Defined.

(** C8 as stated fails: a success reply whose body is not JSON makes
    [getDirections] throw, though [fetch] was not rejected, the status is
    a success and no decoded body without routes was received; and on a
    503 reply whose body text cannot be read the message of the error does
    not include the status. *)
Lemma getDirections_throws_on_undecodable_body_and_may_hide_status :
  (let reply :=
     fetch Example.routingGarbled 1
           (directionsUrl Example.routingGarbled (0, 0) [(1, 0); (0, 1)] walking) in
   (exists message,
       getDirections Example.routingGarbled 1 (0, 0) [(1, 0); (0, 1)] walking = Throw message)
   /\ ~ (fetch_rejected reply \/ non_success_status reply \/ zero_routes reply))
  /\ (exists r message,
         fetch Example.routingBodyLost 1
               (directionsUrl Example.routingBodyLost (0, 0) [(1, 0); (0, 1)] walking)
         = Api.Resolves r
         /\ Api.ok r = false
         /\ getDirections Example.routingBodyLost 1 (0, 0) [(1, 0); (0, 1)] walking
            = Throw message
         /\ message = "Failed to fetch directions: terminated"
         /\ ~ includes (numberToString Example.routingBodyLost (Api.status r)) message).
Proof.
  split.
  - cbv zeta. split.
    + eexists. reflexivity.
    + cbn. intros [[] | [Hf | (_ & d & Hd & _)]]; discriminate.
  - eexists. eexists. split; [reflexivity |]. split; [reflexivity |].
    split; [reflexivity |]. split; [reflexivity |].
    intros Hin. apply includes_includesb in Hin. vm_compute in Hin. discriminate.
Qed.

(** *** The duration filter and the selection *)

Lemma subseq_refl {A : Type} (l : list A) : subseq l l.
Proof. induction l; [apply subseq_nil | apply subseq_keep; assumption]. Qed.

Lemma subseq_filter {A : Type} (f : A -> bool) (l : list A) : subseq (filter f l) l.
Proof.
  induction l as [| x l IH]; simpl; [constructor |].
  destruct (f x); [apply subseq_keep | apply subseq_skip]; assumption.
Qed.

Lemma subseq_nil_l {A : Type} (l : list A) : subseq [] l.
Proof. induction l; constructor; assumption. Qed.

Lemma subseq_firstn {A : Type} (n : nat) (l : list A) : subseq (firstn n l) l.
Proof.
  revert n. induction l as [| x l IH]; intros [| n]; simpl.
  - constructor.
  - constructor.
  - apply subseq_nil_l.
  - apply subseq_keep, IH.
Qed.

Lemma subseq_trans {A : Type} (xs ys zs : list A) :
  subseq xs ys -> subseq ys zs -> subseq xs zs.
Proof.
  intros Hxy Hyz. revert xs Hxy.
  induction Hyz as [| z ys zs Hyz IH | z ys zs Hyz IH]; intros xs Hxy.
  - assumption.
  - apply subseq_skip. auto.
  - inversion Hxy; subst; [apply subseq_skip | apply subseq_keep]; auto.
Qed.

Lemma filterRoutesByDuration_In (candidates : list Route) (maxDuration : number) (r : Route) :
  In r (filterRoutesByDuration candidates maxDuration)
  <-> In r candidates /\ duration r <= maxDuration * 60.
Proof.
  unfold filterRoutesByDuration. rewrite filter_In, Qle_bool_iff. reflexivity.
Qed.

Lemma onMap_routes (f : MapboxMap -> MapboxMap) (s : State) : routes (onMap f s) = routes s.
Proof. unfold onMap. destruct (map_current s); reflexivity. Qed.

Lemma onMap_markers (f : MapboxMap -> MapboxMap) (s : State) :
  waypointMarkers (onMap f s) = waypointMarkers s.
Proof. unfold onMap. destruct (map_current s); reflexivity. Qed.

Lemma onMap_error (f : MapboxMap -> MapboxMap) (s : State) : error (onMap f s) = error s.
Proof. unfold onMap. destruct (map_current s); reflexivity. Qed.

Lemma onMap_map (f : MapboxMap -> MapboxMap) (s : State) :
  map_current (onMap f s) = option_map f (map_current s).
Proof. unfold onMap. destruct (map_current s) eqn:E; [reflexivity | now rewrite E]. Qed.

(** Candidates that carry their pair are all added, and adding them
    leaves the [routes] cell and the error message alone. *)
Lemma addRoutes_has_pair (env : Env) (active : nat) (rs : list Route) :
  Forall has_pair rs ->
  forall (index : nat) (s : State),
    snd (addRoutes env active index rs s) = Ok tt
    /\ routes (fst (addRoutes env active index rs s)) = routes s
    /\ error (fst (addRoutes env active index rs s)) = error s.
Proof.
  induction 1 as [| r rs (p & q & rest & Hr) Hrs IH]; intros index s; cbn [addRoutes].
  - auto.
  - rewrite Hr.
    match goal with |- context [addRoutes env active (S index) rs ?s'] =>
      destruct (IH (S index) s') as (H1 & H2 & H3); rewrite H1, H2, H3 end.
    cbn. rewrite !onMap_routes, !onMap_error. auto.
Qed.

Lemma addRoutesToMap_has_pair (env : Env) (active : nat) (rs : list Route) (s : State) :
  map_current s <> None ->
  Forall has_pair rs ->
  snd (addRoutesToMap env active rs s) = Ok tt
  /\ routes (fst (addRoutesToMap env active rs s)) = rs
  /\ error (fst (addRoutesToMap env active rs s)) = error s.
Proof.
  intros Hmap Hrs. unfold addRoutesToMap.
  destruct (map_current s) as [m |]; [| congruence].
  destruct (addRoutes_has_pair env active Hrs 0 s) as (H1 & H2 & H3).
  destruct (addRoutes env active 0 rs s) as [s' res]. cbn in *. subst res. cbn. auto.
Qed.

Lemma Forall_subseq {A : Type} (P : A -> Prop) (xs ys : list A) :
  subseq xs ys -> Forall P ys -> Forall P xs.
Proof.
  induction 1 as [| y xs ys Hsub IH | y xs ys Hsub IH]; intros Hys.
  - constructor.
  - inversion Hys; subst. auto.
  - inversion Hys; subst. constructor; auto.
Qed.

(** Showing candidates that carry their pair does not throw, and sets the
    route list to the first three survivors of the filter when there is
    one. *)
Lemma showRoutes_completes (env : Env) (active : nat) (walkDuration : number)
      (allRoutes : list Route) (s : State) :
  map_current s <> None ->
  Forall has_pair allRoutes ->
  snd (showRoutes env active walkDuration allRoutes s) = Ok tt
  /\ routes (fst (showRoutes env active walkDuration allRoutes s))
     = match filterRoutesByDuration allRoutes walkDuration with
       | [] => routes s
       | survivors => firstn 3 survivors
       end.
Proof.
  intros Hmap Hpairs. unfold showRoutes. cbv zeta.
  assert (Hsub : subseq (filterRoutesByDuration allRoutes walkDuration) allRoutes)
    by apply subseq_filter.
  destruct (filterRoutesByDuration allRoutes walkDuration) as [| r1 survivors] eqn:Hf.
  - cbn. auto.
  - destruct (length (r1 :: survivors) <? 1)%nat eqn:H1; [cbn in H1; discriminate |].
    destruct (length (r1 :: survivors) <? 3)%nat eqn:H3.
    + apply Nat.ltb_lt in H3.
      match goal with |- context [addRoutesToMap env active ?rs ?s'] =>
        destruct (@addRoutesToMap_has_pair env active rs s') as (E1 & E2 & _) end.
      * exact Hmap.
      * eapply Forall_subseq; eassumption.
      * rewrite E1, E2, firstn_all2 by lia. auto.
    + match goal with |- context [addRoutesToMap env active ?rs ?s'] =>
        destruct (@addRoutesToMap_has_pair env active rs s') as (E1 & E2 & _) end.
      * exact Hmap.
      * eapply Forall_subseq; [| exact Hpairs].
        eapply subseq_trans; [apply subseq_firstn | exact Hsub].
      * rewrite E1, E2. auto.
Qed.

(** C1: the filter keeps exactly the candidates whose duration is at most
    [maxDuration * 60] seconds, in their order, and what is then shown is
    the first three of them (all of them when there are fewer), so no
    more than three routes.  The candidates carry their waypoint pair, as
    every assembled candidate does, and the route list has been cleared,
    as [generateRoutes] does before it selects. *)
Theorem filter_and_select_first_three_within_duration :
  forall (env : Env) (active : nat) (maxDuration : number)
         (candidates : list Route) (s : State),
    map_current s <> None ->
    routes s = [] ->
    Forall has_pair candidates ->
    let survivors := filterRoutesByDuration candidates maxDuration in
    let shown := routes (fst (showRoutes env active maxDuration candidates s)) in
    Forall (fun r => duration r <= maxDuration * 60) survivors
    /\ (forall r, In r candidates -> duration r <= maxDuration * 60 -> In r survivors)
    /\ subseq survivors candidates
    /\ shown = firstn 3 survivors
    /\ (length shown <= 3)%nat
    /\ Forall (fun r => duration r <= maxDuration * 60) shown
    /\ subseq shown candidates
    /\ snd (showRoutes env active maxDuration candidates s) = Ok tt.
Proof.
  intros env active maxDuration candidates s Hmap Hroutes Hpairs survivors shown.
  assert (Hdur : Forall (fun r => duration r <= maxDuration * 60) survivors).
  { apply Forall_forall. intros r Hr. apply filterRoutesByDuration_In in Hr. tauto. }
  assert (Hsub : subseq survivors candidates) by apply subseq_filter.
  destruct (@showRoutes_completes env active maxDuration candidates s Hmap Hpairs)
    as (Hok & Hset).
  assert (Hshown : shown = firstn 3 survivors).
  { subst shown. rewrite Hset. fold survivors.
    destruct survivors; [exact Hroutes | reflexivity]. }
  repeat split; try assumption.
  - intros r Hin Hle. apply filterRoutesByDuration_In. auto.
  - rewrite Hshown, length_firstn. lia.
  - rewrite Hshown. eapply Forall_subseq; [apply subseq_firstn | exact Hdur].
  - rewrite Hshown. eapply subseq_trans; [apply subseq_firstn | exact Hsub].
Qed.

(** C1 on five candidates, one of them too long: the first three of the
    four survivors are shown. *)
Lemma filter_and_select_first_three_witness :
  routes (fst (showRoutes Example.routingDown 0 30 Example.candidates Example.initial))
  = [Example.candidate 0 600; Example.candidate 2 900; Example.candidate 3 1800]
  /\ (length (routes (fst (showRoutes Example.routingDown 0%nat 30%Q Example.candidates
                                      Example.initial))) <= 3)%nat.
Proof.
  assert (Hmap : map_current Example.initial <> None) by discriminate.
  assert (Hpairs : Forall has_pair Example.candidates).
  { repeat constructor; exists (1, 0), (0, 1), []; reflexivity. }
  pose proof (@filter_and_select_first_three_within_duration
                Example.routingDown 0%nat 30 Example.candidates Example.initial
                Hmap eq_refl Hpairs) as H.
  cbv zeta in H. destruct H as (_ & _ & _ & Hshown & Hlen & _).
  split; [rewrite Hshown; reflexivity | exact Hlen].
Defined.

(** *** The point sampler *)

Lemma sample_loop_eq (fuel : nat) (random : nat -> number) (k : nat) (p : Polygon)
      (bbox : Turf.BBox) (count : Z) (points : list Position) :
  sample_loop fuel random k p bbox count points =
  if (Z.of_nat (length points) <? count)%Z then
    match fuel with
    | O => None
    | S fuel' =>
        if Turf.booleanPointInPolygon (drawn random k bbox) p false
        then sample_loop fuel' random (S (S k)) p bbox count (points ++ [drawn random k bbox])
        else sample_loop fuel' random (S (S k)) p bbox count points
    end
  else Some points.
Proof. destruct fuel; reflexivity. Qed.

(** What the loop returns has [count] points when it started with no more
    than [count], and every point it added passed the containment test. *)
Lemma sample_loop_returns (p : Polygon) (bbox : Turf.BBox) (count : Z)
      (random : nat -> number) (fuel : nat) :
  forall (k : nat) (points result : list Position),
    (Z.of_nat (length points) <= count)%Z ->
    Forall (fun pt => Turf.booleanPointInPolygon pt p false = true) points ->
    sample_loop fuel random k p bbox count points = Some result ->
    Z.of_nat (length result) = count
    /\ Forall (fun pt => Turf.booleanPointInPolygon pt p false = true) result.
Proof.
  induction fuel as [| fuel IH]; intros k points result Hlen Hin; rewrite sample_loop_eq.
  - destruct (Z.ltb_spec (Z.of_nat (length points)) count); [discriminate |].
    intros [= <-]. split; [lia | assumption].
  - destruct (Z.ltb_spec (Z.of_nat (length points)) count) as [Hlt | Hge].
    + destruct (Turf.booleanPointInPolygon (drawn random k bbox) p false) eqn:Htest.
      * apply IH.
        -- rewrite length_app. cbn [length]. lia.
        -- apply Forall_app. split; [assumption | constructor; [assumption | constructor]].
      * apply IH; assumption.
    + intros [= <-]. split; [lia | assumption].
Qed.

(** The rings [turf.polygon] accepts. *)
Lemma check_rings_Ok (rs : list Ring) :
  Turf.check_rings rs = Ok tt
  <-> Forall (fun r => (4 <= length r)%nat
                       /\ Turf.position_eqb (last r Turf.origin) (hd Turf.origin r) = true) rs.
Proof.
  induction rs as [| r rs IH]; cbn [Turf.check_rings].
  - split; [constructor | reflexivity].
  - unfold Turf.check_ring.
    destruct (Nat.ltb_spec (length r) 4) as [Hlt | Hge].
    + split; [discriminate |]. intros H. inversion H as [| ? ? [H4 _] _]. lia.
    + destruct (Turf.position_eqb (last r Turf.origin) (hd Turf.origin r)) eqn:Hc; cbn [negb].
      * rewrite IH. split; [intros H; constructor; auto |]. intros H. now inversion H.
      * split; [discriminate |]. intros H. inversion H as [| ? ? [_ Hcl] _]. congruence.
Qed.


(** *** What the containment test accepts *)





















(** *** The sampler has no bound *)

(** As long as the draws are rejected the loop only uses up fuel. *)
Lemma sample_loop_rejecting (p : Polygon) (bbox : Turf.BBox) (count : Z)
      (random : nat -> number) (points : list Position) (n : nat) :
  (Z.of_nat (length points) < count)%Z ->
  forall (k fuel : nat),
    (forall j, (j < n)%nat ->
               Turf.booleanPointInPolygon (drawn random (k + 2 * j) bbox) p false = false) ->
    sample_loop (n + fuel) random k p bbox count points
    = sample_loop fuel random (k + 2 * n) p bbox count points.
Proof.
  intros Hlt. induction n as [| n IH]; intros k fuel Hrej.
  - cbn [Nat.add]. f_equal. lia.
  - cbn [Nat.add]. rewrite sample_loop_eq.
    destruct (Z.ltb_spec (Z.of_nat (length points)) count); [| lia].
    specialize (Hrej 0%nat ltac:(lia)) as H0. replace (k + 2 * 0)%nat with k in H0 by lia.
    rewrite H0. rewrite IH.
    + f_equal. lia.
    + intros j Hj. specialize (Hrej (S j) ltac:(lia)).
      replace (S (S k) + 2 * j)%nat with (k + 2 * S j)%nat by lia. exact Hrej.
Qed.

Lemma offDiagonal_rejected (j : nat) :
  Turf.booleanPointInPolygon
    (drawn Example.offDiagonal (0 + 2 * j) (Turf.bbox Example.sliver)) Example.sliver false
  = false.
Proof.
  unfold drawn, Example.offDiagonal. cbn [Nat.add].
  rewrite Nat.even_succ, <- Nat.negb_even.
  replace (Nat.even (2 * j)) with true
    by (symmetry; apply Nat.even_spec; exists j; reflexivity).
  reflexivity.
Qed.

Lemma lateHit_rejected (bound j : nat) :
  (j < bound)%nat ->
  Turf.booleanPointInPolygon
    (drawn (Example.lateHit bound) (0 + 2 * j) (Turf.bbox Example.triangle))
    Example.triangle false
  = false.
Proof.
  intros Hj. unfold drawn, Example.lateHit. cbn [Nat.add].
  destruct (Nat.ltb_spec (2 * j) (2 * bound)); [| lia].
  destruct (Nat.ltb_spec (S (2 * j)) (2 * bound)); [| lia].
  reflexivity.
Qed.

Lemma lateHit_accepted (bound : nat) :
  sample_loop 1 (Example.lateHit bound) (0 + 2 * bound) Example.triangle
              (Turf.bbox Example.triangle) 1 []
  = Some [drawn (fun _ => 1 # 4) 0 (Turf.bbox Example.triangle)].
Proof.
  rewrite sample_loop_eq. cbn [length Z.of_nat Z.ltb Z.compare].
  unfold drawn at 1 2, Example.lateHit. cbn [Nat.add].
  destruct (Nat.ltb_spec (2 * bound) (2 * bound)); [lia |].
  destruct (Nat.ltb_spec (S (2 * bound)) (2 * bound)); [lia |].
  reflexivity.
Qed.

(** C9: the sampling loop has no bound on its iterations and no failure
    of its own.  On a polygon without area and draws in [[0, 1)] that never
    meet it the sampler is still running after any number of iterations;
    for every bound there are draws with which it returns only after more
    iterations than the bound; and the only errors it throws are those of
    the ring check of [turf.polygon], before the loop starts. *)
Theorem sampler_loop_is_unbounded :
  (exists (polygon : Polygon) (count : Z) (random : nat -> number),
      (1 <= count)%Z
      /\ (forall k, 0 <= random k /\ random k < 1)
      /\ Turf.polygon polygon = Ok polygon
      /\ forall fuel, generateRandomPointsInPolygon fuel random polygon count = Running)
  /\ (forall bound : nat,
         exists (polygon : Polygon) (random : nat -> number) (points : list Position),
           (forall k, 0 <= random k /\ random k < 1)
           /\ generateRandomPointsInPolygon bound random polygon 1 = Running
           /\ generateRandomPointsInPolygon (S bound) random polygon 1 = Returned points)
  /\ (forall fuel random polygon count message,
         generateRandomPointsInPolygon fuel random polygon count = Thrown message ->
         Turf.polygon polygon = Throw message).
Proof.
  split; [| split].
  - exists Example.sliver, 1%Z, Example.offDiagonal.
    split; [lia |]. split; [| split; [reflexivity |]].
    + intros k. unfold Example.offDiagonal. destruct (Nat.even k); split; reflexivity || discriminate.
    + intros fuel. unfold generateRandomPointsInPolygon.
      change (Turf.polygon Example.sliver) with (Ok Example.sliver).
      cbv iota beta zeta.
      replace fuel with (fuel + 0)%nat at 1 by lia.
      rewrite sample_loop_rejecting.
      * reflexivity.
      * cbn. lia.
      * intros j _. apply offDiagonal_rejected.
  - intros bound.
    exists Example.triangle, (Example.lateHit bound),
      [drawn (fun _ => 1 # 4) 0 (Turf.bbox Example.triangle)].
    split; [| split].
    + intros k. unfold Example.lateHit.
      destruct (k <? 2 * bound)%nat; split; reflexivity || discriminate.
    + unfold generateRandomPointsInPolygon.
      change (Turf.polygon Example.triangle) with (Ok Example.triangle).
      cbv iota beta zeta.
      replace bound with (bound + 0)%nat at 1 by lia.
      rewrite sample_loop_rejecting.
      * reflexivity.
      * cbn. lia.
      * intros j Hj. apply lateHit_rejected. exact Hj.
    + unfold generateRandomPointsInPolygon.
      change (Turf.polygon Example.triangle) with (Ok Example.triangle).
      cbv iota beta zeta.
      replace (S bound) with (bound + 1)%nat by lia.
      rewrite sample_loop_rejecting.
      * rewrite lateHit_accepted. reflexivity.
      * cbn. lia.
      * intros j Hj. apply lateHit_rejected. exact Hj.
  - intros fuel random polygon count message. unfold generateRandomPointsInPolygon.
    destruct (Turf.polygon polygon) as [turfPolygon | m]; [| congruence].
    destruct (sample_loop _ _ _ _ _ _ _); discriminate.
Qed.

(** *** Requests, responses and assembled candidates *)

Lemma groupPairs_pairs (points : list Position) :
  Forall (fun w => exists p q, w = [p; q]) (groupPairs points).
Proof.
  assert (H : forall n points, (length points <= n)%nat ->
                               Forall (fun w => exists p q, w = [p; q]) (groupPairs points)).
  { induction n as [| n IH]; intros [| p [| q rest]] Hlen; cbn [groupPairs];
      try constructor; cbn in Hlen; try lia.
    - exists p, q. reflexivity.
    - apply IH. lia. }
  apply (H (length points)). lia.
Qed.

Lemma getDirections_Ok_has_route (env : Env) (n : nat) (start : Position)
      (waypoints : list Position) (profile : Profile) (data : Api.Json) :
  getDirections env n start waypoints profile = Ok data -> has_route data.
Proof.
  intros H. pose proof (getDirections_cases env n start waypoints profile) as Hc.
  destruct (fetch env n _) as [m | r]; [congruence |].
  destruct (Api.ok r); [| destruct (Api.text r); congruence].
  destruct (Api.json r) as [d | m]; [| congruence].
  destruct (Api.routes d) as [[| route rest] |] eqn:Hr; try congruence.
  assert (d = data) as <- by congruence. exists route, rest. exact Hr.
Qed.

Lemma requestRoutes_answered (env : Env) (start : Position)
      (routeWaypoints : list (list Position)) :
  forall (n : nat) (routePromises : list Api.Json),
    requestRoutes env start n routeWaypoints routePromises
    = routePromises ++ map snd (answered env start n routeWaypoints).
Proof.
  induction routeWaypoints as [| w rest IH]; intros n acc; cbn [requestRoutes answered].
  - cbn. now rewrite app_nil_r.
  - destruct (getDirections env n start w walking) as [result | m]; rewrite IH.
    + cbn [map snd]. now rewrite <- app_assoc.
    + reflexivity.
Qed.

Lemma answered_app (env : Env) (start : Position) (before after : list (list Position)) :
  forall n : nat,
    answered env start n (before ++ after)
    = answered env start n before ++ answered env start (n + length before) after.
Proof.
  induction before as [| w before IH]; intros n; cbn [app answered length].
  - now rewrite Nat.add_0_r.
  - rewrite IH. replace (S n + length before)%nat with (n + S (length before))%nat by lia.
    destruct (getDirections env n start w walking); reflexivity.
Qed.

Lemma answered_has_route (env : Env) (start : Position)
      (routeWaypoints : list (list Position)) :
  forall n : nat, Forall (fun a => has_route (snd a)) (answered env start n routeWaypoints).
Proof.
  induction routeWaypoints as [| w rest IH]; intros n; cbn [answered]; [constructor |].
  destruct (getDirections env n start w walking) as [result | m] eqn:Hd; [| apply IH].
  constructor; [| apply IH]. cbn. eapply getDirections_Ok_has_route; eassumption.
Qed.

Lemma answeredPairs_subseq (env : Env) (start : Position)
      (routeWaypoints : list (list Position)) :
  forall n : nat, subseq (answeredPairs env start n routeWaypoints) routeWaypoints.
Proof.
  unfold answeredPairs.
  induction routeWaypoints as [| w rest IH]; intros n; cbn [answered]; [constructor |].
  destruct (getDirections env n start w walking).
  - cbn [map fst]. apply subseq_keep, IH.
  - apply subseq_skip, IH.
Qed.

Lemma subseq_length {A : Type} (xs ys : list A) :
  subseq xs ys -> (length xs <= length ys)%nat.
Proof. induction 1; cbn; lia. Qed.

(** Every response that has a route yields a candidate; the candidate
    made from the response at [index] takes the pair at [index] of
    [routeWaypoints]. *)
Lemma processRoutes_has_route (routeWaypoints : list (list Position))
      (routePromises : list Api.Json) :
  Forall has_route routePromises ->
  forall (index : nat) (allRoutes : list Route),
  exists assembled,
    processRoutes routeWaypoints index routePromises allRoutes = Ok (allRoutes ++ assembled)
    /\ map waypoints assembled
       = map (nth_error routeWaypoints) (seq index (length routePromises))
    /\ map id assembled = seq index (length routePromises)
    /\ map (fun r => Some [duration r])
           assembled
       = map (fun d => option_map (map Api.duration) (option_map (firstn 1) (Api.routes d)))
             routePromises.
Proof.
  induction 1 as [| response rest (route & others & Hr) Hrest IH]; intros index allRoutes.
  - exists []. cbn. now rewrite app_nil_r.
  - cbn [processRoutes]. rewrite Hr.
    match goal with |- context [processRoutes _ _ _ (allRoutes ++ [?r])] =>
      destruct (IH (S index) (allRoutes ++ [r])) as (assembled & H1 & H2 & H3 & H4);
      exists (r :: assembled) end.
    rewrite H1, <- app_assoc. cbn. rewrite H2, H3, H4, Hr. auto.
Qed.

Lemma map_nth_error_seq {A : Type} (l : list A) :
  forall k : nat, (k <= length l)%nat ->
                  map (nth_error l) (seq 0 k) = map Some (firstn k l).
Proof.
  induction l as [| x l IH]; intros [| k] Hk; cbn in Hk; try lia; try reflexivity.
  cbn [seq map firstn nth_error]. rewrite <- seq_shift, map_map. cbn [nth_error].
  rewrite IH by lia. reflexivity.
Qed.

(** The candidates assembled from the responses of a run: there is one
    for each answered pair, and the [i]-th candidate carries the [i]-th
    pair of [routeWaypoints]. *)
Lemma assembled_candidates (env : Env) (start : Position)
      (routeWaypoints : list (list Position)) :
  exists allRoutes,
    processRoutes routeWaypoints 0 (requestRoutes env start 1 routeWaypoints []) [] = Ok allRoutes
    /\ length allRoutes = length (answeredPairs env start 1 routeWaypoints)
    /\ map waypoints allRoutes = map Some (firstn (length allRoutes) routeWaypoints).
Proof.
  rewrite requestRoutes_answered. cbn [app].
  destruct (@processRoutes_has_route routeWaypoints
              (map snd (answered env start 1 routeWaypoints))) with (index := 0%nat)
              (allRoutes := @nil Route) as (assembled & H1 & H2 & _).
  { apply Forall_map. apply answered_has_route. }
  exists assembled. cbn [app] in H1. split; [exact H1 |].
  assert (Hlen : length assembled = length (answeredPairs env start 1 routeWaypoints)).
  { unfold answeredPairs. rewrite <- (length_map waypoints), H2.
    now rewrite length_map, length_seq, !length_map. }
  split; [exact Hlen |].
  rewrite H2, length_map, map_nth_error_seq.
  - rewrite Hlen. unfold answeredPairs. now rewrite length_map.
  - pose proof (subseq_length (answeredPairs_subseq env start routeWaypoints 1)) as Hle.
    unfold answeredPairs in Hle. now rewrite length_map in Hle.
Qed.

Lemma assembled_candidates_have_pairs (env : Env) (start : Position)
      (randomPoints : list Position) (allRoutes : list Route) :
  processRoutes (groupPairs randomPoints) 0
                (requestRoutes env start 1 (groupPairs randomPoints) []) [] = Ok allRoutes ->
  Forall has_pair allRoutes.
Proof.
  intros Hp.
  destruct (assembled_candidates env start (groupPairs randomPoints))
    as (allRoutes' & Hp' & _ & Hw).
  assert (allRoutes' = allRoutes) as -> by congruence.
  pose proof (groupPairs_pairs randomPoints) as Hpairs.
  assert (Hsome : Forall (fun o => exists p q, o = Some [p; q]) (map waypoints allRoutes)).
  { rewrite Hw. apply Forall_map.
    eapply Forall_impl; [| apply (Forall_subseq (subseq_firstn _ _) Hpairs)].
    intros w (p & q & ->). exists p, q. reflexivity. }
  rewrite Forall_map in Hsome. eapply Forall_impl; [| exact Hsome].
  intros r (p & q & H). exists p, q, []. exact H.
Qed.

(** Without a failed request every candidate carries its own pair. *)
Lemma candidates_carry_their_pair_when_all_answered (env : Env) (start : Position)
      (routeWaypoints : list (list Position)) (allRoutes : list Route) :
  answeredPairs env start 1 routeWaypoints = routeWaypoints ->
  processRoutes routeWaypoints 0 (requestRoutes env start 1 routeWaypoints []) [] = Ok allRoutes ->
  map waypoints allRoutes = map Some (answeredPairs env start 1 routeWaypoints).
Proof.
  intros Hall Hp.
  destruct (assembled_candidates env start routeWaypoints) as (allRoutes' & Hp' & Hlen & Hw).
  assert (allRoutes' = allRoutes) as -> by congruence.
  rewrite Hw, Hlen, Hall, firstn_all. reflexivity.
Qed.

(** C2 fails on the code: in the run of [Example.firstRouteFails] the
    request for the first pair fails and the other five are answered, so
    the answered pairs are pairs 1 to 5; the five candidates carry pairs
    0 to 4.  The first candidate, made from the answer to the second
    request (a route of 120 seconds), carries the first pair. *)
Theorem candidate_carries_pair_of_skipped_request :
  let env := Example.firstRouteFails in
  let routeWaypoints := Example.pairs in
  let routePromises := requestRoutes env (0, 0) 1 routeWaypoints [] in
  length routeWaypoints = 6%nat
  /\ answeredPairs env (0, 0) 1 routeWaypoints = skipn 1 routeWaypoints
  /\ exists allRoutes,
      processRoutes routeWaypoints 0 routePromises [] = Ok allRoutes
      /\ (exists s1,
             assembleRoutes env 12 Example.initial (startRun env Example.initial)
             = Some (s1, Ok allRoutes))
      /\ map waypoints allRoutes = map Some (firstn 5 routeWaypoints)
      /\ map duration allRoutes = [120; 180; 240; 300; 360]
      /\ map Api.routes routePromises
         = map (fun n => Api.routes (Example.routeBody (inject_Z (Z.of_nat n) * 60)))
               [2; 3; 4; 5; 6]%nat
      /\ map waypoints allRoutes <> map Some (answeredPairs env (0, 0) 1 routeWaypoints).
Proof.
  cbv zeta. split; [reflexivity |]. split; [reflexivity |].
  eexists. split; [vm_compute; reflexivity |].
  split; [eexists; vm_compute; reflexivity |].
  split; [reflexivity |]. split; [reflexivity |]. split; [reflexivity |].
  vm_compute. discriminate.
Qed.

(** *** What a run does to the map and to the state *)

Lemma removeLayer_ids (id x : string) (m : MapboxMap) :
  In x (map layer_id (layers (removeLayer id m))) ->
  In x (map layer_id (layers m)) /\ x <> id.
Proof.
  unfold removeLayer. cbn [layers]. rewrite !in_map_iff.
  intros (l & <- & Hl). apply filter_In in Hl. destruct Hl as (Hl & Hneq). split.
  - exists l. auto.
  - intros Heq. apply String.eqb_eq in Heq. rewrite Heq in Hneq. discriminate.
Qed.

Lemma removeSource_ids (id x : string) (m : MapboxMap) :
  In x (map fst (sources (removeSource id m))) ->
  In x (map fst (sources m)) /\ x <> id.
Proof.
  unfold removeSource. cbn [sources]. rewrite !in_map_iff.
  intros (l & <- & Hl). apply filter_In in Hl. destruct Hl as (Hl & Hneq). split.
  - exists l. auto.
  - intros Heq. apply String.eqb_eq in Heq. rewrite Heq in Hneq. discriminate.
Qed.

Lemma clearRoutes_layer_ids (env : Env) (indices : list nat) :
  forall (m : MapboxMap) (x : string),
    In x (map layer_id (layers (fold_left (clearRoute env) indices m))) ->
    In x (map layer_id (layers m)) /\ forall i, In i indices -> x <> routeId env i.
Proof.
  induction indices as [| i indices IH]; intros m x Hx; cbn [fold_left] in Hx.
  - split; [assumption | intros i []].
  - apply IH in Hx. destruct Hx as (Hx & Hrest).
    unfold clearRoute in Hx. change (layers (removeSource ?id ?m)) with (layers m) in Hx.
    apply removeLayer_ids in Hx. destruct Hx as (Hx & Hneq).
    split; [assumption |]. intros j [<- | Hj]; auto.
Qed.

Lemma clearRoutes_source_ids (env : Env) (indices : list nat) :
  forall (m : MapboxMap) (x : string),
    In x (map fst (sources (fold_left (clearRoute env) indices m))) ->
    In x (map fst (sources m)) /\ forall i, In i indices -> x <> routeId env i.
Proof.
  induction indices as [| i indices IH]; intros m x Hx; cbn [fold_left] in Hx.
  - split; [assumption | intros i []].
  - apply IH in Hx. destruct Hx as (Hx & Hrest).
    unfold clearRoute in Hx. apply removeSource_ids in Hx. destruct Hx as (Hx & Hneq).
    change (sources (removeLayer ?id ?m)) with (sources m) in Hx.
    split; [assumption |]. intros j [<- | Hj]; auto.
Qed.

(** After [clearMapLayers] the map holds no isochrone layer or source, no
    layer or source of a route 0 to 9, and no waypoint marker. *)
Lemma clearMapLayers_clears (env : Env) (s : State) :
  map_current s <> None ->
  let s' := clearMapLayers env s in
  map_current s' <> None
  /\ waypointMarkers s' = []
  /\ routes s' = routes s /\ error s' = error s /\ loading s' = loading s
  /\ (forall x, In x (layer_ids s') ->
                In x (layer_ids s) /\ x <> "isochrone-fill"%string
                /\ x <> "isochrone-line"%string
                /\ forall i, (i < 10)%nat -> x <> routeId env i)
  /\ (forall x, In x (source_ids s') ->
                In x (source_ids s) /\ x <> "isochrone"%string
                /\ forall i, (i < 10)%nat -> x <> routeId env i).
Proof.
  intros Hmap s'. subst s'. unfold clearMapLayers, layer_ids, source_ids.
  destruct (map_current s) as [m |] eqn:Hm; [| congruence]. cbv zeta.
  cbn [set_waypointMarkers set_map map_current waypointMarkers routes error loading].
  split; [discriminate |].
  repeat (split; [reflexivity |]). split.
  - intros x H. apply clearRoutes_layer_ids in H. destruct H as (H & Hroutes).
    change (layers (removeSource ?id ?m)) with (layers m) in H.
    apply removeLayer_ids in H. destruct H as (H & Hline).
    apply removeLayer_ids in H. destruct H as (H & Hfill).
    repeat split; try assumption.
    intros i Hi. apply Hroutes. apply in_seq. lia.
  - intros x H. apply clearRoutes_source_ids in H. destruct H as (H & Hroutes).
    apply removeSource_ids in H. destruct H as (H & Hiso).
    change (sources (removeLayer ?id ?m)) with (sources m) in H.
    repeat split; try assumption.
    intros i Hi. apply Hroutes. apply in_seq. lia.
Qed.

Lemma startRun_clears (env : Env) (s : State) :
  map_current s <> None ->
  let s' := startRun env s in
  map_current s' <> None
  /\ waypointMarkers s' = [] /\ routes s' = [] /\ error s' = None /\ loading s' = true
  /\ (forall x, In x (layer_ids s') ->
                In x (layer_ids s) /\ x <> "isochrone-fill"%string
                /\ x <> "isochrone-line"%string
                /\ forall i, (i < 10)%nat -> x <> routeId env i)
  /\ (forall x, In x (source_ids s') ->
                In x (source_ids s) /\ x <> "isochrone"%string
                /\ forall i, (i < 10)%nat -> x <> routeId env i).
Proof.
  intros Hmap s'. subst s'. unfold startRun. cbv zeta.
  match goal with |- context [clearMapLayers env ?s0] =>
    destruct (@clearMapLayers_clears env s0) as (H1 & H2 & H3 & H4 & H5 & H6 & H7) end.
  { exact Hmap. }
  cbv zeta in *. rewrite H2, H3, H4, H5. auto 10.
Qed.

Lemma layer_ids_addLayer (l : Layer) (s : State) (x : string) :
  In x (layer_ids (onMap (addLayer l) s)) -> In x (layer_ids s) \/ x = layer_id l.
Proof.
  unfold layer_ids. rewrite onMap_map. destruct (map_current s) as [m |]; cbn; [| tauto].
  rewrite map_app, in_app_iff. cbn. intuition auto.
Qed.

Lemma layer_ids_addSource (id : string) (d : SourceData) (s : State) :
  layer_ids (onMap (addSource id d) s) = layer_ids s.
Proof.
  unfold layer_ids. rewrite onMap_map. destruct (map_current s) as [m |]; reflexivity.
Qed.

Lemma source_ids_addLayer (l : Layer) (s : State) :
  source_ids (onMap (addLayer l) s) = source_ids s.
Proof.
  unfold source_ids. rewrite onMap_map. destruct (map_current s) as [m |]; reflexivity.
Qed.

Lemma source_ids_addSource (id : string) (d : SourceData) (s : State) (x : string) :
  In x (source_ids (onMap (addSource id d) s)) -> In x (source_ids s) \/ x = id.
Proof.
  unfold source_ids. rewrite onMap_map. destruct (map_current s) as [m |]; cbn; [| tauto].
  rewrite map_app, in_app_iff. cbn. intuition auto.
Qed.

Lemma onMap_loading (f : MapboxMap -> MapboxMap) (s : State) : loading (onMap f s) = loading s.
Proof. unfold onMap. destruct (map_current s); reflexivity. Qed.

Lemma onMap_initialised (f : MapboxMap -> MapboxMap) (s : State) :
  map_current s <> None -> map_current (onMap f s) <> None.
Proof. rewrite onMap_map. destruct (map_current s); [discriminate | congruence]. Qed.

(** The state the first part of the [try] block leaves: the cells for
    routes, markers and error are as before, and the only layers and
    sources it adds are those of the isochrone. *)
Lemma assembleRoutes_effects (env : Env) (fuel : nat) (snapshot s s1 : State)
      (res : Result (list Route)) :
  assembleRoutes env fuel snapshot s = Some (s1, res) ->
  routes s1 = routes s /\ waypointMarkers s1 = waypointMarkers s
  /\ error s1 = error s /\ loading s1 = loading s
  /\ (map_current s <> None -> map_current s1 <> None)
  /\ (forall x, In x (layer_ids s1) ->
                In x (layer_ids s) \/ x = "isochrone-fill"%string
                \/ x = "isochrone-line"%string)
  /\ (forall x, In x (source_ids s1) -> In x (source_ids s) \/ x = "isochrone"%string).
Proof.
  unfold assembleRoutes. cbv zeta.
  set (s0 := setDebugInfo _ s).
  assert (H0 : routes s0 = routes s /\ waypointMarkers s0 = waypointMarkers s
               /\ error s0 = error s /\ loading s0 = loading s
               /\ (map_current s <> None -> map_current s0 <> None)
               /\ (forall x, In x (layer_ids s0) ->
                             In x (layer_ids s) \/ x = "isochrone-fill"%string
                             \/ x = "isochrone-line"%string)
               /\ (forall x, In x (source_ids s0) ->
                             In x (source_ids s) \/ x = "isochrone"%string)).
  { subst s0. unfold layer_ids, source_ids. cbn. auto 10. }
  destruct (getIsochrone env 0 (lng snapshot) (lat snapshot) _) as [data | e].
  2: { intros [= <- <-]. exact H0. }
  set (s2 := onMap _ (onMap _ (onMap _ (setIsochroneData (Some data) s0)))).
  assert (H2 : routes s2 = routes s /\ waypointMarkers s2 = waypointMarkers s
               /\ error s2 = error s /\ loading s2 = loading s
               /\ (map_current s <> None -> map_current s2 <> None)
               /\ (forall x, In x (layer_ids s2) ->
                             In x (layer_ids s) \/ x = "isochrone-fill"%string
                             \/ x = "isochrone-line"%string)
               /\ (forall x, In x (source_ids s2) ->
                             In x (source_ids s) \/ x = "isochrone"%string)).
  { subst s2. rewrite !onMap_routes, !onMap_markers, !onMap_error, !onMap_loading.
    repeat (split; [reflexivity |]). split; [| split].
    - intros Hm. do 3 apply onMap_initialised. exact Hm.
    - intros x Hx. apply layer_ids_addLayer in Hx. destruct Hx as [Hx | ->]; [| auto].
      apply layer_ids_addLayer in Hx. destruct Hx as [Hx | ->]; [| auto].
      rewrite layer_ids_addSource in Hx. left. exact Hx.
    - intros x Hx. rewrite !source_ids_addLayer in Hx.
      apply source_ids_addSource in Hx. destruct Hx as [Hx | ->]; [| auto].
      left. exact Hx. }
  clearbody s2 s0.
  destruct (Api.features data) as [| feature rest].
  { intros [= <- <-]. exact H2. }
  destruct (generateRandomPointsInPolygon fuel (random env) (Api.geometry feature) 12)
    as [randomPoints | e |]; [| | discriminate]; intros [= <- <-]; exact H2.
Qed.

Lemma assembleRoutes_Ok_has_pair (env : Env) (fuel : nat) (snapshot s s1 : State)
      (allRoutes : list Route) :
  assembleRoutes env fuel snapshot s = Some (s1, Ok allRoutes) ->
  Forall has_pair allRoutes.
Proof.
  unfold assembleRoutes. cbv zeta.
  destruct (getIsochrone env 0 (lng snapshot) (lat snapshot) _) as [data | e];
    [| discriminate].
  destruct (Api.features data) as [| feature rest]; [discriminate |].
  destruct (generateRandomPointsInPolygon fuel (random env) (Api.geometry feature) 12)
    as [randomPoints | e |]; try discriminate.
  intros [= _ Hp]. eapply assembled_candidates_have_pairs. exact Hp.
Qed.

(** The run ends in the [catch] clause only with an error thrown while
    the candidates were being assembled; showing them does not throw. *)
Lemma caught_while_assembling (env : Env) (fuel : nat) (s s' : State) (err : string) :
  generateRoutes_exit env fuel s = Some (s', Caught err) ->
  map_current s <> None
  /\ exists s1,
      assembleRoutes env fuel s (startRun env s) = Some (s1, Throw err)
      /\ s' = setLoading false
                (setError (Some ("Failed to generate routes: " ++ err)%string) s1).
Proof.
  unfold generateRoutes_exit.
  destruct (map_current s) as [m |] eqn:Hm; [| discriminate].
  assert (Hmap : map_current s <> None) by congruence. clear Hm.
  destruct (@startRun_clears env s Hmap) as (Hmap' & _). cbv zeta in *.
  unfold tryBlock.
  destruct (assembleRoutes env fuel s (startRun env s)) as [[s1 [allRoutes | e]] |] eqn:Ha;
    [| | discriminate].
  - destruct (@showRoutes_completes env (activeRouteIndex s) (walkDuration s) allRoutes s1)
      as (Hok & _).
    + apply assembleRoutes_effects in Ha. apply Ha. exact Hmap'.
    + eapply assembleRoutes_Ok_has_pair. exact Ha.
    + destruct (showRoutes env (activeRouteIndex s) (walkDuration s) allRoutes s1)
        as [s2 res]. cbn in Hok. subst res. discriminate.
  - intros [= <- <-]. split; [discriminate |]. exists s1. auto.
Qed.

Lemma routeId_not_isochrone (env : Env) (i : nat) :
  routeId env i <> "isochrone-fill"%string
  /\ routeId env i <> "isochrone-line"%string
  /\ routeId env i <> "isochrone"%string.
Proof. unfold routeId. cbn. repeat split; discriminate. Qed.

(** C4 (amended): a run that ends in the [catch] clause leaves one
    message, ["Failed to generate routes: "] followed by the cause, and
    is no longer loading; the route list is empty and the map holds no
    waypoint marker and no layer or source of a route (0 to 9), because
    the run cleared them before its [try] block.  Besides what the map
    held before, only the two isochrone layers and the isochrone source
    can be on it. *)
Theorem fatal_run_leaves_cleared_state :
  forall (env : Env) (fuel : nat) (s s' : State) (err : string),
    generateRoutes_exit env fuel s = Some (s', Caught err) ->
    error s' = Some ("Failed to generate routes: " ++ err)%string
    /\ loading s' = false
    /\ routes s' = []
    /\ waypointMarkers s' = []
    /\ (forall i, (i < 10)%nat ->
                  ~ In (routeId env i) (layer_ids s') /\ ~ In (routeId env i) (source_ids s'))
    /\ (forall x, In x (layer_ids s') ->
                  In x (layer_ids s) \/ x = "isochrone-fill"%string
                  \/ x = "isochrone-line"%string)
    /\ (forall x, In x (source_ids s') -> In x (source_ids s) \/ x = "isochrone"%string).
Proof.
  intros env fuel s s' err Hrun.
  apply caught_while_assembling in Hrun. destruct Hrun as (Hmap & s1 & Ha & ->).
  apply assembleRoutes_effects in Ha.
  destruct Ha as (Hr & Hm & _ & _ & _ & Hl & Hs).
  destruct (@startRun_clears env s Hmap) as (_ & Hm0 & Hr0 & _ & _ & Hl0 & Hs0).
  cbv zeta in *.
  change (layer_ids (setLoading false (setError ?e s1))) with (layer_ids s1).
  change (source_ids (setLoading false (setError ?e s1))) with (source_ids s1).
  cbn [error loading routes waypointMarkers setLoading setError].
  rewrite Hr, Hm, Hr0, Hm0.
  repeat (split; [reflexivity |]).
  split; [| split].
  - intros i Hi. destruct (routeId_not_isochrone env i) as (Nf & Nl & Ns). split.
    + intros Hin. apply Hl in Hin. destruct Hin as [Hin | [Hin | Hin]]; try contradiction.
      apply Hl0 in Hin. destruct Hin as (_ & _ & _ & Hin). exact (Hin i Hi eq_refl).
    + intros Hin. apply Hs in Hin. destruct Hin as [Hin | Hin]; try contradiction.
      apply Hs0 in Hin. destruct Hin as (_ & _ & Hin). exact (Hin i Hi eq_refl).
  - intros x Hx. apply Hl in Hx. destruct Hx as [Hx | Hx]; [| auto].
    apply Hl0 in Hx. tauto.
  - intros x Hx. apply Hs in Hx. destruct Hx as [Hx | Hx]; [| auto].
    apply Hs0 in Hx. tauto.
Qed.

(** C4 (amended) on a run that starts with one route shown and whose
    reachability request is refused. *)
Lemma fatal_run_leaves_cleared_state_witness :
  generateRoutes_exit Example.providerDown 0 Example.showingOneRoute
  = Some (mkState (Some Example.emptyMap) [] 0 0 false (Some Example.isochroneBody) [] 0
                  (Some "Failed to generate routes: Failed to fetch isochrone: Failed to fetch")
                  30 (Some "Using 15 min isochrone for 30 min total walk"),
          Caught "Failed to fetch isochrone: Failed to fetch")
  /\ routes (mkState (Some Example.emptyMap) [] 0 0 false (Some Example.isochroneBody) [] 0
                     (Some "Failed to generate routes: Failed to fetch isochrone: Failed to fetch")
                     30 (Some "Using 15 min isochrone for 30 min total walk")) = [].
Proof.
  assert (Hrun : generateRoutes_exit Example.providerDown 0 Example.showingOneRoute
                 = Some (mkState (Some Example.emptyMap) [] 0 0 false
                                 (Some Example.isochroneBody) [] 0
                                 (Some "Failed to generate routes: Failed to fetch isochrone: Failed to fetch")
                                 30 (Some "Using 15 min isochrone for 30 min total walk"),
                         Caught "Failed to fetch isochrone: Failed to fetch"))
    by reflexivity.
  split; [exact Hrun |].
  exact (proj1 (proj2 (proj2 (@fatal_run_leaves_cleared_state
                                Example.providerDown 0%nat Example.showingOneRoute _ _ Hrun)))).
Defined.

(** C4 as stated fails: the map shows one route when the run starts, the
    reachability request fails, and the run leaves no route and no route
    layer; the state it leaves is not the one it found. *)
Lemma fatal_run_does_not_keep_last_good_state :
  ~ (forall s',
        generateRoutes Example.providerDown 0 Example.showingOneRoute = Some s' ->
        routes s' = routes Example.showingOneRoute
        /\ layer_ids s' = layer_ids Example.showingOneRoute).
Proof.
  intros claim.
  destruct (claim _ eq_refl) as (Hroutes & _). cbn in Hroutes. discriminate.
Qed.

(** *** The routes a run displays *)

(** A run that ends, started with the map initialised, either completes
    and displays the first three survivors of the candidates it
    assembled, or is caught and displays none. *)
Lemma ended_run_displays_first_three (env : Env) (fuel : nat) (s s' : State) (exit : Exit) :
  map_current s <> None ->
  generateRoutes_exit env fuel s = Some (s', exit) ->
  (exit = Completed
   /\ exists allRoutes s1,
       assembleRoutes env fuel s (startRun env s) = Some (s1, Ok allRoutes)
       /\ routes s' = firstn 3 (filterRoutesByDuration allRoutes (walkDuration s)))
  \/ (exists e, exit = Caught e /\ routes s' = []).
Proof.
  intros Hmap. unfold generateRoutes_exit.
  destruct (@startRun_clears env s Hmap) as (Hmap0 & _ & Hr0 & _). cbv zeta in *.
  destruct (map_current s) as [m |] eqn:Hm; [| congruence]. clear Hm.
  unfold tryBlock.
  destruct (assembleRoutes env fuel s (startRun env s)) as [[s1 [allRoutes | e]] |] eqn:Ha;
    [| | discriminate].
  - pose proof (assembleRoutes_effects _ _ _ _ Ha) as (Hr & _ & _ & _ & Hm1 & _).
    pose proof (assembleRoutes_Ok_has_pair _ _ _ _ Ha) as Hpairs.
    destruct (@showRoutes_completes env (activeRouteIndex s) (walkDuration s) allRoutes s1
                                    (Hm1 Hmap0) Hpairs) as (Hok & Hset).
    destruct (showRoutes env (activeRouteIndex s) (walkDuration s) allRoutes s1)
      as [s2 res]. cbn [fst snd] in Hok, Hset. subst res.
    intros [= <- <-]. left. split; [reflexivity |].
    exists allRoutes, s1. split; [reflexivity |].
    cbn [routes setLoading]. rewrite Hset.
    destruct (filterRoutesByDuration allRoutes (walkDuration s)); [| reflexivity].
    rewrite Hr, Hr0. reflexivity.
  - pose proof (assembleRoutes_effects _ _ _ _ Ha) as (Hr & _).
    intros [= <- <-]. right. exists e. split; [reflexivity |].
    cbn [routes setLoading setError]. rewrite Hr, Hr0. reflexivity.
Qed.

(** So the route list a run leaves has at most three routes, each within
    the walk duration. *)
Lemma ended_run_displays_at_most_three (env : Env) (fuel : nat) (s s' : State) (exit : Exit) :
  map_current s <> None ->
  generateRoutes_exit env fuel s = Some (s', exit) ->
  (length (routes s') <= 3)%nat
  /\ Forall (fun r => duration r <= walkDuration s * 60) (routes s').
Proof.
  intros Hmap Hrun.
  destruct (@ended_run_displays_first_three env fuel s s' exit Hmap Hrun)
    as [(_ & allRoutes & s1 & _ & ->) | (e & _ & ->)].
  - split; [rewrite length_firstn; lia |].
    eapply Forall_subseq; [apply subseq_firstn |].
    apply Forall_forall. intros r Hr. apply filterRoutesByDuration_In in Hr. tauto.
  - split; [cbn; lia | constructor].
Qed.

(** *** Failures of the provider *)

(** No request is answered when each request that is made fails. *)
Lemma answered_none (env : Env) (start : Position) (routeWaypoints : list (list Position)) :
  forall n : nat,
    (forall i w, nth_error routeWaypoints i = Some w ->
                 exists m, getDirections env (n + i) start w walking = Throw m) ->
    answered env start n routeWaypoints = [].
Proof.
  induction routeWaypoints as [| w rest IH]; intros n Hfail; cbn [answered].
  - reflexivity.
  - destruct (Hfail 0%nat w eq_refl) as (m & Hm). rewrite Nat.add_0_r in Hm. rewrite Hm.
    apply IH. intros i w' Hi. rewrite Nat.add_succ_comm. now apply Hfail.
Qed.

Lemma processRoutes_fields (routeWaypoints : list (list Position))
      (routePromises : list Api.Json) :
  Forall has_route routePromises ->
  forall (index : nat) (allRoutes : list Route),
  exists assembled,
    processRoutes routeWaypoints index routePromises allRoutes = Ok (allRoutes ++ assembled)
    /\ Forall2 (fun response r =>
                  exists route rest,
                    Api.routes response = Some (route :: rest)
                    /\ distance r = Api.distance route
                    /\ duration r = Api.duration route
                    /\ route_coordinates r = Api.geometry_coordinates route
                    /\ elevationDifference r
                       = Some (estimateElevationDifference (Api.distance route)))
               routePromises assembled.
Proof.
  induction 1 as [| response rest (route & others & Hr) Hrest IH]; intros index allRoutes.
  - exists []. cbn. rewrite app_nil_r. split; [reflexivity | constructor].
  - cbn [processRoutes]. rewrite Hr.
    match goal with |- context [processRoutes _ _ _ (allRoutes ++ [?r])] =>
      destruct (IH (S index) (allRoutes ++ [r])) as (assembled & H1 & H2);
      exists (r :: assembled) end.
    rewrite H1, <- app_assoc. split; [reflexivity |].
    constructor; [| exact H2]. exists route, others. cbn. auto.
Qed.

(** The responses the request loop keeps, read off the requests one by
    one: the request for the [i]-th pair is request number [n + i], and
    its response is kept exactly if it returned. *)
Lemma answered_by_position (env : Env) (start : Position) (n : nat)
      (routeWaypoints : list (list Position)) :
  forall k : nat,
    map snd (answered env start (n + k) routeWaypoints)
    = flat_map (fun iw => match getDirections env (n + fst iw) start (snd iw) walking with
                          | Ok data => [data]
                          | Throw _ => []
                          end)
               (combine (seq k (length routeWaypoints)) routeWaypoints).
Proof.
  induction routeWaypoints as [| w rest IH]; intros k; [reflexivity |].
  cbn [answered length seq combine flat_map fst snd].
  rewrite <- IH, Nat.add_succ_r.
  destruct (getDirections env (n + k) start w walking); reflexivity.
Qed.

(** With the reachability request answered by a feature and the sampler
    returning, the candidates are assembled from the kept responses. *)
Lemma assembleRoutes_sampled (env : Env) (fuel : nat) (snapshot s : State)
      (data : Api.Json) (feature : Api.Feature) (rest : list Api.Feature)
      (randomPoints : list Position) :
  getIsochrone env 0 (lng snapshot) (lat snapshot) (halfDuration (walkDuration snapshot))
  = Ok data ->
  Api.features data = feature :: rest ->
  generateRandomPointsInPolygon fuel (random env) (Api.geometry feature) 12
  = Returned randomPoints ->
  exists s1 allRoutes,
    assembleRoutes env fuel snapshot s = Some (s1, Ok allRoutes)
    /\ Forall2 (fun response r =>
                  exists route others,
                    Api.routes response = Some (route :: others)
                    /\ distance r = Api.distance route
                    /\ duration r = Api.duration route
                    /\ route_coordinates r = Api.geometry_coordinates route
                    /\ elevationDifference r
                       = Some (estimateElevationDifference (Api.distance route)))
               (requestRoutes env (lng snapshot, lat snapshot) 1 (groupPairs randomPoints) [])
               allRoutes.
Proof.
  intros Hiso Hfeat Hsample. unfold assembleRoutes. cbv zeta.
  rewrite Hiso, Hfeat, Hsample.
  destruct (@processRoutes_fields
              (groupPairs randomPoints)
              (requestRoutes env (lng snapshot, lat snapshot) 1 (groupPairs randomPoints) []))
    with (index := 0%nat) (allRoutes := @nil Route) as (allRoutes & Hp & Hfields).
  { rewrite requestRoutes_answered. cbn [app]. apply Forall_map. apply answered_has_route. }
  cbn [app] in Hp. rewrite Hp. eexists. exists allRoutes. split; [reflexivity | exact Hfields].
Qed.

(** A run whose candidates were assembled ends at the end of the [try]
    block. *)
Lemma run_completes (env : Env) (fuel : nat) (s s1 : State) (allRoutes : list Route) :
  map_current s <> None ->
  assembleRoutes env fuel s (startRun env s) = Some (s1, Ok allRoutes) ->
  generateRoutes_exit env fuel s
  = Some (setLoading false
            (fst (showRoutes env (activeRouteIndex s) (walkDuration s) allRoutes s1)),
          Completed).
Proof.
  intros Hmap Ha. unfold generateRoutes_exit.
  destruct (@startRun_clears env s Hmap) as (Hmap0 & _). cbv zeta in *.
  destruct (map_current s) as [m |] eqn:Hm; [| congruence]. clear Hm.
  unfold tryBlock. rewrite Ha.
  pose proof (assembleRoutes_effects _ _ _ _ Ha) as (_ & _ & _ & _ & Hm1 & _).
  pose proof (assembleRoutes_Ok_has_pair _ _ _ _ Ha) as Hpairs.
  destruct (@showRoutes_completes env (activeRouteIndex s) (walkDuration s) allRoutes s1
                                  (Hm1 Hmap0) Hpairs) as (Hok & _).
  destruct (showRoutes env (activeRouteIndex s) (walkDuration s) allRoutes s1) as [s2 res].
  cbn [fst snd] in *. subst res. reflexivity.
Qed.

(** What a run is caught on: the reachability request, a reply without a
    feature, or a polygon that [turf.polygon] rejects. *)
Lemma caught_on_reachability_stage (env : Env) (fuel : nat) (s s' : State) (e : string) :
  generateRoutes_exit env fuel s = Some (s', Caught e) ->
  getIsochrone env 0 (lng s) (lat s) (halfDuration (walkDuration s)) = Throw e
  \/ exists data,
      getIsochrone env 0 (lng s) (lat s) (halfDuration (walkDuration s)) = Ok data
      /\ (Api.features data = []
          \/ exists feature rest,
              Api.features data = feature :: rest
              /\ Turf.polygon (Api.geometry feature) = Throw e).
Proof.
  intros Hrun. apply caught_while_assembling in Hrun as (_ & s1 & Ha & _).
  destruct (getIsochrone env 0 (lng s) (lat s) (halfDuration (walkDuration s)))
    as [data | e0] eqn:Hiso.
  - right. exists data. split; [reflexivity |].
    destruct (Api.features data) as [| feature rest] eqn:Hfeat; [now left | right].
    exists feature, rest. split; [reflexivity |].
    destruct (generateRandomPointsInPolygon fuel (random env) (Api.geometry feature) 12)
      as [randomPoints | e1 |] eqn:Hsample.
    + destruct (@assembleRoutes_sampled env fuel s (startRun env s) data feature rest
                  randomPoints Hiso Hfeat Hsample) as (s2 & allRoutes & Ha' & _).
      congruence.
    + unfold assembleRoutes in Ha. cbv zeta in Ha. rewrite Hiso, Hfeat, Hsample in Ha.
      injection Ha as _ <-.
      unfold generateRandomPointsInPolygon in Hsample.
      destruct (Turf.polygon (Api.geometry feature)) as [turfPolygon | m]; [| congruence].
      destruct (sample_loop _ _ _ _ _ _ _); discriminate.
    + unfold assembleRoutes in Ha. cbv zeta in Ha. rewrite Hiso, Hfeat, Hsample in Ha.
      discriminate.
  - left. unfold assembleRoutes in Ha. cbv zeta in Ha. rewrite Hiso in Ha. congruence.
Qed.

(** C5: the request loop makes one request per pair, numbered in their
    order, and keeps exactly the responses of the requests that returned,
    in that order: a request that fails drops its own response and no
    other.  A failure of the reachability request ends the run in the
    [catch] clause.  Once the reachability request has returned a feature
    and the sampler has returned its points, the run ends at the end of
    the [try] block whatever the directions requests did: the candidates
    are built one by one from the kept responses, the first three within
    the walk duration are shown, and if every directions request that was
    made failed the route list is empty and the message says that no route
    was found.
    A run is caught only on the reachability request, on a reachability
    reply without a feature, or on a polygon that [turf.polygon]
    rejects. *)
Theorem routing_failure_drops_its_response_reachability_stage_is_fatal :
  forall env : Env,
    (forall start n routeWaypoints,
        requestRoutes env start n routeWaypoints []
        = flat_map (fun iw => match getDirections env (n + fst iw) start (snd iw) walking with
                              | Ok data => [data]
                              | Throw _ => []
                              end)
                   (combine (seq 0 (length routeWaypoints)) routeWaypoints))
    /\ (forall fuel s,
           map_current s <> None ->
           let iso := getIsochrone env 0 (lng s) (lat s) (halfDuration (walkDuration s)) in
           (forall e,
               iso = Throw e ->
               exists s',
                 generateRoutes_exit env fuel s = Some (s', Caught e)
                 /\ routes s' = []
                 /\ error s' = Some ("Failed to generate routes: " ++ e)%string)
           /\ (forall data feature rest randomPoints,
                  iso = Ok data ->
                  Api.features data = feature :: rest ->
                  generateRandomPointsInPolygon fuel (random env) (Api.geometry feature) 12
                  = Returned randomPoints ->
                  exists s' allRoutes,
                    generateRoutes_exit env fuel s = Some (s', Completed)
                    /\ Forall2 (fun response r =>
                                  exists route others,
                                    Api.routes response = Some (route :: others)
                                    /\ distance r = Api.distance route
                                    /\ duration r = Api.duration route
                                    /\ route_coordinates r = Api.geometry_coordinates route)
                               (requestRoutes env (lng s, lat s) 1 (groupPairs randomPoints) [])
                               allRoutes
                    /\ routes s' = firstn 3 (filterRoutesByDuration allRoutes (walkDuration s))
                    /\ ((forall i w,
                            nth_error (groupPairs randomPoints) i = Some w ->
                            exists m,
                              getDirections env (S i) (lng s, lat s) w walking = Throw m) ->
                        routes s' = []
                        /\ error s'
                           = Some ("Could not find any routes within "
                                     ++ numberToString env (walkDuration s)
                                     ++ " minutes. Try increasing the duration or selecting a different starting point.")%string))
           /\ (forall s' e,
                  generateRoutes_exit env fuel s = Some (s', Caught e) ->
                  iso = Throw e
                  \/ exists data,
                      iso = Ok data
                      /\ (Api.features data = []
                          \/ exists feature rest,
                              Api.features data = feature :: rest
                              /\ Turf.polygon (Api.geometry feature) = Throw e))).
Proof.
  intros env. split.
  - intros start n routeWaypoints. rewrite requestRoutes_answered. cbn [app].
    rewrite <- (Nat.add_0_r n) at 1. apply answered_by_position.
  - intros fuel s Hmap iso. subst iso.
    destruct (@startRun_clears env s Hmap) as (Hmap0 & _ & Hr0 & _). cbv zeta in Hmap0, Hr0.
    split; [| split].
    + intros e Hiso. unfold generateRoutes_exit.
      destruct (map_current s) as [m |] eqn:Hm; [| congruence]. cbv zeta.
      unfold tryBlock, assembleRoutes. cbv zeta. rewrite Hiso.
      eexists. split; [reflexivity |]. split; [exact Hr0 | reflexivity].
    + intros data feature rest randomPoints Hiso Hfeat Hsample.
      destruct (@assembleRoutes_sampled env fuel s (startRun env s) data feature rest
                  randomPoints Hiso Hfeat Hsample) as (s1 & allRoutes & Ha & Hfields).
      pose proof (@run_completes env fuel s s1 allRoutes Hmap Ha) as Hrun.
      eexists. exists allRoutes. split; [exact Hrun |]. split.
      { eapply Forall2_impl; [| exact Hfields].
        intros response r (route & others & H1 & H2 & H3 & H4 & _).
        exists route, others. auto. }
      destruct (@ended_run_displays_first_three env fuel s _ _ Hmap Hrun)
        as [(_ & allRoutes' & s1' & Ha' & Hshown) | (e & He & _)]; [| discriminate].
      assert (allRoutes' = allRoutes) as -> by congruence.
      split; [exact Hshown |]. intros Hfail.
      rewrite requestRoutes_answered,
        (@answered_none env (lng s, lat s) (groupPairs randomPoints) 1 Hfail) in Hfields.
      cbn in Hfields. inversion Hfields; subst.
      pose proof (assembleRoutes_effects _ _ _ _ Ha) as (Hr1 & _).
      cbn. split; [congruence | reflexivity].
    + intros s' e. apply caught_on_reachability_stage.
Qed.

(** C5 on three runs.  With the first directions request getting a 503
    reply and the five others answered, five responses are kept and the
    run shows the routes of the second, third and fourth request.  With
    every directions request getting a 503 reply the run completes with
    no route and the message that none was found.  With the provider
    refusing every request the run is caught on the reachability
    request. *)
Lemma routing_failure_drops_its_response_witness :
  (requestRoutes Example.firstRouteFails (0, 0) 1 Example.pairs []
   = [Example.routeBody (2 * 60); Example.routeBody (3 * 60); Example.routeBody (4 * 60);
      Example.routeBody (5 * 60); Example.routeBody (6 * 60)]
   /\ exists s',
       generateRoutes_exit Example.firstRouteFails 12 Example.initial = Some (s', Completed)
       /\ map duration (routes s') = [120; 180; 240]
       /\ error s' = None)
  /\ (exists s',
         generateRoutes_exit Example.routingDown 12 Example.initial = Some (s', Completed)
         /\ routes s' = []
         /\ error s'
            = Some "Could not find any routes within 30 minutes. Try increasing the duration or selecting a different starting point.")
  /\ (exists s',
         generateRoutes_exit Example.providerDown 12 Example.initial
         = Some (s', Caught "Failed to fetch isochrone: Failed to fetch")
         /\ routes s' = []
         /\ error s'
            = Some "Failed to generate routes: Failed to fetch isochrone: Failed to fetch").
Proof.
  assert (Hmap : map_current Example.initial <> None) by discriminate.
  split; [| split].
  - destruct (routing_failure_drops_its_response_reachability_stage_is_fatal
                Example.firstRouteFails) as (Hkept & Hrun).
    split.
    + rewrite Hkept. vm_compute. reflexivity.
    + destruct (Hrun 12%nat Example.initial Hmap) as (_ & Hsampled & _).
      destruct (Hsampled Example.isochroneBody (Api.mkFeature Example.triangle) []
                         Example.sampled eq_refl eq_refl eq_refl)
        as (s' & allRoutes & Hexit & _).
      exists s'. split; [exact Hexit |].
      vm_compute in Hexit. injection Hexit as <-. split; reflexivity.
  - destruct (proj2 (routing_failure_drops_its_response_reachability_stage_is_fatal
                       Example.routingDown) 12%nat Example.initial Hmap)
      as (_ & Hsampled & _).
    destruct (Hsampled Example.isochroneBody (Api.mkFeature Example.triangle) []
                       Example.sampled eq_refl eq_refl eq_refl)
      as (s' & allRoutes & Hexit & _ & _ & Hnone).
    exists s'. split; [exact Hexit |].
    apply Hnone. intros i w _. eexists. reflexivity.
  - destruct (proj2 (routing_failure_drops_its_response_reachability_stage_is_fatal
                       Example.providerDown) 12%nat Example.initial Hmap)
      as (Hfatal & _).
    exact (Hfatal "Failed to fetch isochrone: Failed to fetch" eq_refl).
Defined.

(** C5 as stated fails: a run is caught although the reachability request
    returned, its reply having a success status and no feature. *)
Lemma run_is_caught_though_reachability_request_returned :
  exists data s' e,
    getIsochrone Example.nothingReachable 0 (lng Example.initial) (lat Example.initial)
                 (halfDuration (walkDuration Example.initial)) = Ok data
    /\ generateRoutes_exit Example.nothingReachable 0 Example.initial = Some (s', Caught e).
Proof.
  eexists. eexists. eexists. split; reflexivity.
Qed.

(** ** Further properties of the code *)

(** *** The two requests *)

(** X1: [getIsochrone] returns exactly the decoded body of a success
    reply, whatever it holds, and every error it throws carries a
    message that starts with ["Failed to fetch isochrone: "]. *)
Theorem getIsochrone_returns_decoded_body :
  forall (env : Env) (n : nat) (lng lat minutes : number),
    let reply := fetch env n (isochroneUrl env lng lat minutes) in
    (forall data,
        getIsochrone env n lng lat minutes = Ok data
        <-> exists r, reply = Api.Resolves r /\ Api.ok r = true /\ Api.json r = Ok data)
    /\ (forall message,
           getIsochrone env n lng lat minutes = Throw message ->
           exists cause, message = ("Failed to fetch isochrone: " ++ cause)%string).
Proof.
  intros env n lng lat minutes reply. unfold getIsochrone. fold reply.
  destruct reply as [m | r].
  - split.
    + intros data. split; [discriminate | intros (r & Hr & _); discriminate].
    + intros message [= <-]. eexists. reflexivity.
  - destruct (Api.ok r) eqn:Hok; cbn [negb].
    + destruct (Api.json r) as [d | m] eqn:Hj.
      * split.
        -- intros data. split.
           ++ intros [= <-]. exists r. auto.
           ++ intros (r' & [= <-] & _ & Hd). congruence.
        -- discriminate.
      * split.
        -- intros data. split; [discriminate |].
           intros (r' & [= <-] & _ & Hd). congruence.
        -- intros message [= <-]. eexists. reflexivity.
    + destruct (Api.text r) as [body | reason]; (split;
        [intros data; split; [discriminate |];
         intros (r' & [= <-] & Hok' & _); congruence
        | intros message [= <-]; eexists; reflexivity]).
Qed.

(** X2: [getDirections] returns exactly the decoded body of a success
    reply that holds at least one route, and every error it throws
    carries a message that starts with ["Failed to fetch directions: "]. *)
Theorem getDirections_returns_body_with_route :
  forall (env : Env) (n : nat) (start : Position) (waypoints : list Position)
         (profile : Profile),
    let reply := fetch env n (directionsUrl env start waypoints profile) in
    (forall data,
        getDirections env n start waypoints profile = Ok data
        <-> exists r, reply = Api.Resolves r /\ Api.ok r = true /\ Api.json r = Ok data
                      /\ has_route data)
    /\ (forall message,
           getDirections env n start waypoints profile = Throw message ->
           exists cause, message = ("Failed to fetch directions: " ++ cause)%string).
Proof.
  intros env n start waypoints profile reply.
  pose proof (getDirections_cases env n start waypoints profile) as Hc. fold reply in Hc.
  destruct reply as [m | r].
  - rewrite Hc. split.
    + intros data. split; [discriminate | intros (r & Hr & _); discriminate].
    + intros message [= <-]. eexists. reflexivity.
  - destruct (Api.ok r) eqn:Hok.
    + destruct (Api.json r) as [d | m] eqn:Hj.
      * destruct (Api.routes d) as [[| route rest] |] eqn:Hr; rewrite Hc.
        -- split.
           ++ intros data. split; [discriminate |].
              intros (r' & [= <-] & _ & Hd & (x & y & Hxy)). congruence.
           ++ intros message [= <-]. eexists. reflexivity.
        -- split.
           ++ intros data. split.
              ** intros [= <-]. exists r. repeat split; auto. exists route, rest. exact Hr.
              ** intros (r' & [= <-] & _ & Hd & _). congruence.
           ++ discriminate.
        -- split.
           ++ intros data. split; [discriminate |].
              intros (r' & [= <-] & _ & Hd & (x & y & Hxy)). congruence.
           ++ intros message [= <-]. eexists. reflexivity.
      * rewrite Hc. split.
        -- intros data. split; [discriminate |].
           intros (r' & [= <-] & _ & Hd & _). congruence.
        -- intros message [= <-]. eexists. reflexivity.
    + destruct (Api.text r) as [body | reason]; rewrite Hc; (split;
        [intros data; split; [discriminate |];
         intros (r' & [= <-] & Hok' & _); congruence
        | intros message [= <-]; eexists; reflexivity]).
Qed.

(** *** The duration of the reachability query *)

Lemma halfDuration_inject (d : number) :
  halfDuration d = inject_Z (Z.max (Qfloor (d / 2)) 5).
Proof. unfold halfDuration. apply (Qmax_inject_Z (Qfloor (d / 2)) 5). Qed.

(** X3: the duration of the reachability query is a whole number of
    minutes, never less than 5, never more than half the walk duration
    once that is 10 minutes or more, and it grows with the walk duration. *)
Theorem halfDuration_bounds :
  forall d : number,
    (exists minutes : Z, halfDuration d = inject_Z minutes)
    /\ 5 <= halfDuration d
    /\ (10 <= d -> 2 * halfDuration d <= d)
    /\ (d < 12 -> halfDuration d = 5)
    /\ (forall d', d <= d' -> halfDuration d <= halfDuration d').
Proof.
  intros d. rewrite halfDuration_inject.
  split; [eexists; reflexivity |]. split; [| split; [| split]].
  - change 5 with (inject_Z 5). rewrite <- Zle_Qle. lia.
  - intros Hd.
    assert (H5 : (5 <= Qfloor (d / 2))%Z).
    { change 5%Z with (Qfloor (inject_Z 5)). apply Qfloor_resp_le.
      apply Qle_shift_div_l; [reflexivity |]. exact Hd. }
    rewrite Z.max_l by lia.
    pose proof (Qfloor_le (d / 2)) as Hf.
    apply (Qmult_le_l _ _ 2) in Hf; [| reflexivity].
    eapply Qle_trans; [exact Hf |]. 
    setoid_replace (2 * (d / 2)) with d by field. apply Qle_refl.
  - intros Hd.
    assert (H5 : (Qfloor (d / 2) < 6)%Z).
    { rewrite Zlt_Qlt. eapply Qle_lt_trans; [apply Qfloor_le |].
      apply Qlt_shift_div_r; [reflexivity |]. exact Hd. }
    rewrite Z.max_r by lia. reflexivity.
  - intros d' Hle. rewrite halfDuration_inject. rewrite <- Zle_Qle.
    apply Z.max_le_compat_r. apply Qfloor_resp_le.
    apply Qmult_le_compat_r; [exact Hle | discriminate].
Qed.

(** *** The duration filter *)

Lemma filter_filter_and {A : Type} (f g : A -> bool) (l : list A) :
  filter f (filter g l) = filter (fun x => g x && f x) l.
Proof.
  induction l as [| x l IH]; cbn; [reflexivity |].
  destruct (g x); cbn; [destruct (f x) |]; now rewrite IH.
Qed.

(** X4: a larger duration budget never loses a route: filtering with the
    smaller budget gives the same as filtering the survivors of the
    larger one, so the survivors of the smaller budget are among those of
    the larger, in the same order; and filtering twice changes nothing. *)
Theorem filterRoutesByDuration_monotone :
  forall (candidates : list Route) (d1 d2 : number),
    d1 <= d2 ->
    filterRoutesByDuration (filterRoutesByDuration candidates d2) d1
    = filterRoutesByDuration candidates d1
    /\ subseq (filterRoutesByDuration candidates d1) (filterRoutesByDuration candidates d2)
    /\ filterRoutesByDuration (filterRoutesByDuration candidates d1) d1
       = filterRoutesByDuration candidates d1.
Proof.
  intros candidates d1 d2 Hle.
  assert (H12 : filterRoutesByDuration (filterRoutesByDuration candidates d2) d1
                = filterRoutesByDuration candidates d1).
  { unfold filterRoutesByDuration. cbv zeta. rewrite filter_filter_and.
    apply filter_ext. intros r.
    destruct (Qle_bool (duration r) (d1 * 60)) eqn:H1; [| apply andb_false_r].
    rewrite andb_true_r. apply Qle_bool_iff. apply Qle_bool_iff in H1.
    eapply Qle_trans; [exact H1 |]. apply Qmult_le_compat_r; [exact Hle | discriminate]. }
  split; [exact H12 |]. split.
  - rewrite <- H12. apply subseq_filter.
  - unfold filterRoutesByDuration. cbv zeta. rewrite filter_filter_and.
    apply filter_ext. intros r. apply andb_diag.
Qed.

Lemma filterRoutesByDuration_monotone_witness :
  subseq (filterRoutesByDuration Example.candidates 20)
         (filterRoutesByDuration Example.candidates 30)
  /\ length (filterRoutesByDuration Example.candidates 20) = 3%nat
  /\ length (filterRoutesByDuration Example.candidates 30) = 4%nat.
Proof.
  assert (Hle : 20 <= 30) by discriminate.
  split; [| split; reflexivity].
  exact (proj1 (proj2 (@filterRoutesByDuration_monotone Example.candidates 20 30 Hle))).
Defined.

(** *** Pairing the sampled points *)

Lemma groupPairs_shape (n : nat) :
  forall points : list Position,
    (length points <= n)%nat ->
    length (groupPairs points) = (length points / 2)%nat
    /\ Forall (fun w => length w = 2%nat) (groupPairs points)
    /\ concat (groupPairs points) = firstn (2 * (length points / 2)) points.
Proof.
  induction n as [| n IH]; intros [| p [| q rest]] Hlen; cbn [groupPairs];
    try (cbn; repeat split; constructor); cbn [length] in Hlen; try lia.
  destruct (IH rest ltac:(lia)) as (H1 & H2 & H3).
  cbn [length].
  replace (S (S (length rest)) / 2)%nat with (S (length rest / 2)).
  2: { change (S (S (length rest))) with (2 + length rest)%nat.
       replace (2 + length rest)%nat with (1 * 2 + length rest)%nat by lia.
       rewrite Nat.div_add_l by lia. lia. }
  split; [now rewrite H1 |]. split; [constructor; [reflexivity | assumption] |].
  cbn [concat app]. rewrite H3.
  replace (2 * S (length rest / 2))%nat with (S (S (2 * (length rest / 2)))) by lia.
  reflexivity.
Qed.

(** X5: the sampled points are paired in their order without reuse: there
    are [n div 2] pairs of two points each, which together are the points
    but for the last one when their number is odd; twelve points give six
    pairs that use them all. *)
Theorem groupPairs_partitions_points :
  forall points : list Position,
    length (groupPairs points) = (length points / 2)%nat
    /\ Forall (fun w => length w = 2%nat) (groupPairs points)
    /\ concat (groupPairs points) = firstn (2 * (length points / 2)) points
    /\ (length points = 12%nat ->
        length (groupPairs points) = 6%nat /\ concat (groupPairs points) = points).
Proof.
  intros points.
  destruct (@groupPairs_shape (length points) points (le_n _)) as (H1 & H2 & H3).
  repeat split; try assumption.
  - rewrite H1, H. reflexivity.
  - rewrite H3, H. cbn [Nat.div Nat.divmod fst Nat.mul Nat.add].
    rewrite <- H. apply firstn_all.
Qed.

(** *** The sampler: edge cases, order of the points, bounding box *)

(** X6: the sampler throws exactly when a ring of the polygon has fewer
    than four positions or is not closed, and it does so before it looks
    at the count; on a polygon whose rings are closed and long enough a
    count of zero or less returns no point without a single draw. *)
Theorem sampler_throws_iff_bad_ring :
  forall (fuel : nat) (random : nat -> number) (polygon : Polygon) (count : Z),
    ((exists message, generateRandomPointsInPolygon fuel random polygon count = Thrown message)
     <-> Exists (fun r => (length r < 4)%nat
                          \/ Turf.position_eqb (last r Turf.origin) (hd Turf.origin r) = false)
                (coordinates polygon))
    /\ (Forall (fun r => (4 <= length r)%nat
                         /\ Turf.position_eqb (last r Turf.origin) (hd Turf.origin r) = true)
               (coordinates polygon) ->
        (count <= 0)%Z ->
        generateRandomPointsInPolygon fuel random polygon count = Returned []).
Proof.
  intros fuel random polygon count.
  pose proof (check_rings_Ok (coordinates polygon)) as Hrings.
  unfold generateRandomPointsInPolygon, Turf.polygon.
  destruct (Turf.check_rings (coordinates polygon)) as [[] | m] eqn:Hc.
  - assert (Hall := proj1 Hrings eq_refl). split.
    + split.
      * intros (message & H). destruct (sample_loop _ _ _ _ _ _ _); discriminate.
      * intros Hex. apply Exists_exists in Hex. destruct Hex as (r & Hin & Hbad).
        rewrite Forall_forall in Hall. destruct (Hall r Hin) as (H4 & Hcl).
        destruct Hbad as [Hlt | Hop]; [lia | congruence].
    + intros _ Hcount. rewrite sample_loop_eq. cbn [length Z.of_nat].
      destruct (Z.ltb_spec 0 count); [lia | reflexivity].
  - split.
    + split; [intros _ | intros _; eexists; reflexivity].
      assert (Hex : Exists (fun r => ~ ((4 <= length r)%nat
                                        /\ Turf.position_eqb (last r Turf.origin)
                                                              (hd Turf.origin r) = true))
                           (coordinates polygon)).
      { apply neg_Forall_Exists_neg.
        - intros r. destruct (le_dec 4 (length r));
            destruct (Turf.position_eqb (last r Turf.origin) (hd Turf.origin r));
            [left; auto | right; intros [_ H]; discriminate
             | right; tauto | right; tauto].
        - intros Hall. apply Hrings in Hall. discriminate. }
      eapply Exists_impl; [| exact Hex]. intros r Hn. cbv beta in *.
      destruct (Nat.ltb_spec (length r) 4); [left; assumption | right].
      destruct (Turf.position_eqb (last r Turf.origin) (hd Turf.origin r));
        [exfalso; apply Hn; auto | reflexivity].
    + intros Hall. apply Hrings in Hall. discriminate.
Qed.

(** X6 on the triangle with a count of zero and no fuel at all. *)
Lemma sampler_throws_iff_bad_ring_witness :
  generateRandomPointsInPolygon 0 (fun _ => 1 # 2) Example.triangle 0 = Returned [].
Proof.
  apply (proj2 (sampler_throws_iff_bad_ring 0 (fun _ => 1 # 2) Example.triangle 0)).
  - repeat constructor.
  - lia.
Defined.

Lemma sample_loop_trace (p : Polygon) (bbox : Turf.BBox) (count : Z)
      (random : nat -> number) (fuel : nat) :
  forall (k : nat) (points result : list Position),
    sample_loop fuel random k p bbox count points = Some result ->
    exists n, (n <= fuel)%nat
              /\ result = points
                          ++ filter (fun pt => Turf.booleanPointInPolygon pt p false)
                                    (map (fun j => drawn random (k + 2 * j) bbox) (seq 0 n)).
Proof.
  induction fuel as [| fuel IH]; intros k points result; rewrite sample_loop_eq.
  - destruct (Z.of_nat (length points) <? count)%Z; [discriminate |].
    intros [= <-]. exists 0%nat. cbn. split; [lia | now rewrite app_nil_r].
  - destruct (Z.of_nat (length points) <? count)%Z.
    + assert (E : forall n, map (fun j => drawn random (k + 2 * j) bbox) (seq 0 (S n))
                            = drawn random k bbox
                                :: map (fun j => drawn random (S (S k) + 2 * j) bbox) (seq 0 n)).
      { intros n. cbn [seq map]. rewrite Nat.mul_0_r, Nat.add_0_r. f_equal.
        rewrite <- seq_shift, map_map. apply map_ext. intros j. f_equal. lia. }
      destruct (Turf.booleanPointInPolygon (drawn random k bbox) p false) eqn:Htest;
        intros Hloop; apply IH in Hloop; destruct Hloop as (n & Hn & ->);
        exists (S n); (split; [lia |]); rewrite E; cbn [filter]; rewrite Htest.
      * rewrite <- app_assoc. reflexivity.
      * reflexivity.
    + intros [= <-]. exists 0%nat. cbn. split; [lia | now rewrite app_nil_r].
Qed.

Lemma sampler_trace (fuel : nat) (random : nat -> number) (polygon : Polygon) (count : Z)
      (points : list Position) :
  generateRandomPointsInPolygon fuel random polygon count = Returned points ->
  exists iterations,
    (iterations <= fuel)%nat
    /\ points = filter (fun pt => Turf.booleanPointInPolygon pt polygon false)
                       (map (fun j => drawn random (2 * j) (Turf.bbox polygon))
                            (seq 0 iterations)).
Proof.
  unfold generateRandomPointsInPolygon.
  destruct (Turf.polygon polygon) as [turfPolygon | m] eqn:Hp; [| discriminate].
  assert (turfPolygon = polygon) as ->.
  { unfold Turf.polygon in Hp. destruct (Turf.check_rings (coordinates polygon));
      congruence. }
  destruct (sample_loop fuel random 0 polygon (Turf.bbox polygon) count [])
    as [result |] eqn:Hloop; [| discriminate].
  intros [= <-]. apply sample_loop_trace in Hloop.
  destruct Hloop as (n & Hn & ->). exists n. split; [exact Hn | reflexivity].
Qed.

(** X7: the points the sampler returns are, in the order of the draws,
    the accepted ones among the points drawn in its first iterations: the
    [j]-th iteration draws its point from calls [2j] and [2j+1] of
    [Math.random], and no accepted point is left out or moved. *)
Theorem sampler_returns_accepted_draws_in_order :
  forall (fuel : nat) (random : nat -> number) (polygon : Polygon) (count : Z)
         (points : list Position),
    generateRandomPointsInPolygon fuel random polygon count = Returned points ->
    exists iterations,
      (iterations <= fuel)%nat
      /\ points = filter (fun pt => Turf.booleanPointInPolygon pt polygon false)
                         (map (fun j => drawn random (2 * j) (Turf.bbox polygon))
                              (seq 0 iterations)).
Proof.
  intros fuel random polygon count points Hrun.
  exact (@sampler_trace fuel random polygon count points Hrun).
Qed.

Lemma sampler_returns_accepted_draws_in_order_witness :
  exists iterations,
    (iterations <= 3)%nat
    /\ [(0 + (1 # 4) * (2 - 0), 0 + (1 # 4) * (2 - 0))]
       = filter (fun pt => Turf.booleanPointInPolygon pt Example.triangle false)
                (map (fun j => drawn (Example.lateHit 2) (2 * j) (Turf.bbox Example.triangle))
                     (seq 0 iterations)).
Proof.
  exact (@sampler_returns_accepted_draws_in_order
           3%nat (Example.lateHit 2) Example.triangle 1%Z _ eq_refl).
Defined.

(** *** The bounding box *)

Lemma Qltb_true (a b : Q) : Qltb a b = true <-> a < b.
Proof.
  unfold Qltb. rewrite negb_true_iff. split.
  - intros H. apply Qnot_le_lt. intros Hle. apply Qle_bool_iff in Hle. congruence.
  - intros H. destruct (Qle_bool b a) eqn:E; [| reflexivity].
    apply Qle_bool_iff in E. exfalso. apply (Qlt_not_le _ _ H). exact E.
Qed.

Lemma Qltb_false (a b : Q) : Qltb a b = false <-> b <= a.
Proof.
  unfold Qltb. rewrite negb_false_iff. apply Qle_bool_iff.
Qed.

Lemma extend_ordered (b : Turf.BBox) (c : Position) :
  Turf.minX b <= Turf.maxX b /\ Turf.minY b <= Turf.maxY b ->
  Turf.minX (Turf.extend b c) <= Turf.maxX (Turf.extend b c)
  /\ Turf.minY (Turf.extend b c) <= Turf.maxY (Turf.extend b c).
Proof.
  intros (Hx & Hy). unfold Turf.extend. cbn [Turf.minX Turf.maxX Turf.minY Turf.maxY].
  split.
  - destruct (Qltb (fst c) (Turf.minX b)) eqn:H1; destruct (Qltb (Turf.maxX b) (fst c)) eqn:H2;
      try apply Qltb_true in H1; try apply Qltb_true in H2;
      try apply Qltb_false in H1; try apply Qltb_false in H2; lra.
  - destruct (Qltb (snd c) (Turf.minY b)) eqn:H1; destruct (Qltb (Turf.maxY b) (snd c)) eqn:H2;
      try apply Qltb_true in H1; try apply Qltb_true in H2;
      try apply Qltb_false in H1; try apply Qltb_false in H2; lra.
Qed.

Lemma bbox_ordered (p : Polygon) :
  Turf.minX (Turf.bbox p) <= Turf.maxX (Turf.bbox p)
  /\ Turf.minY (Turf.bbox p) <= Turf.maxY (Turf.bbox p).
Proof.
  unfold Turf.bbox. destruct (concat (coordinates p)) as [| c rest].
  - cbn. split; apply Qle_refl.
  - assert (H : forall cs b,
               Turf.minX b <= Turf.maxX b /\ Turf.minY b <= Turf.maxY b ->
               Turf.minX (fold_left Turf.extend cs b) <= Turf.maxX (fold_left Turf.extend cs b)
               /\ Turf.minY (fold_left Turf.extend cs b)
                  <= Turf.maxY (fold_left Turf.extend cs b)).
    { induction cs as [| x cs IH]; intros b Hb; cbn [fold_left]; [exact Hb |].
      apply IH. apply extend_ordered. exact Hb. }
    apply H. cbn. split; apply Qle_refl.
Qed.

Lemma drawn_in_bbox (random : nat -> number) (k : nat) (b : Turf.BBox) :
  Turf.minX b <= Turf.maxX b /\ Turf.minY b <= Turf.maxY b ->
  0 <= random k <= 1 -> 0 <= random (S k) <= 1 ->
  in_bbox (drawn random k b) b.
Proof.
  intros (Hx & Hy) (H0 & H1) (H0' & H1'). unfold in_bbox, drawn. cbn [fst snd].
  assert (Px : 0 <= random k * (Turf.maxX b - Turf.minX b))
    by (apply Qmult_le_0_compat; lra).
  assert (Qx : 0 <= (1 - random k) * (Turf.maxX b - Turf.minX b))
    by (apply Qmult_le_0_compat; lra).
  assert (Py : 0 <= random (S k) * (Turf.maxY b - Turf.minY b))
    by (apply Qmult_le_0_compat; lra).
  assert (Qy : 0 <= (1 - random (S k)) * (Turf.maxY b - Turf.minY b))
    by (apply Qmult_le_0_compat; lra).
  repeat split; lra.
Qed.

(** X8: with draws between 0 and 1, as [Math.random] gives them, every
    point the sampler returns lies in the bounding box of the polygon. *)
Theorem sampled_points_in_bounding_box :
  forall (fuel : nat) (random : nat -> number) (polygon : Polygon) (count : Z)
         (points : list Position),
    (forall k, 0 <= random k /\ random k < 1) ->
    generateRandomPointsInPolygon fuel random polygon count = Returned points ->
    Forall (fun pt => in_bbox pt (Turf.bbox polygon)) points.
Proof.
  intros fuel random polygon count points Hrandom Hrun.
  apply sampler_trace in Hrun.
  destruct Hrun as (n & _ & ->).
  apply Forall_forall. intros pt Hin. apply filter_In in Hin. destruct Hin as (Hin & _).
  apply in_map_iff in Hin. destruct Hin as (j & <- & _).
  apply drawn_in_bbox; [apply bbox_ordered | |].
  - destruct (Hrandom (2 * j)%nat). split; [assumption | lra].
  - destruct (Hrandom (S (2 * j))). split; [assumption | lra].
Qed.

(** X8 on the triangle, with every draw equal to 1/4. *)
Lemma sampled_points_in_bounding_box_witness :
  Forall (fun pt => in_bbox pt (Turf.bbox Example.triangle))
         [(0 + (1 # 4) * (2 - 0), 0 + (1 # 4) * (2 - 0));
          (0 + (1 # 4) * (2 - 0), 0 + (1 # 4) * (2 - 0))].
Proof.
  apply (@sampled_points_in_bounding_box 2%nat (fun _ => 1 # 4) Example.triangle 2%Z).
  - intros k. split; [discriminate | reflexivity].
  - reflexivity.
Defined.

(** *** The candidates a run assembles *)

Lemma assembleRoutes_Ok_inv (env : Env) (fuel : nat) (snapshot s s1 : State)
      (allRoutes : list Route) :
  assembleRoutes env fuel snapshot s = Some (s1, Ok allRoutes) ->
  exists data feature rest randomPoints,
    getIsochrone env 0 (lng snapshot) (lat snapshot) (halfDuration (walkDuration snapshot))
    = Ok data
    /\ Api.features data = feature :: rest
    /\ generateRandomPointsInPolygon fuel (random env) (Api.geometry feature) 12
       = Returned randomPoints
    /\ processRoutes (groupPairs randomPoints) 0
                     (requestRoutes env (lng snapshot, lat snapshot) 1
                                    (groupPairs randomPoints) []) []
       = Ok allRoutes.
Proof.
  unfold assembleRoutes. cbv zeta.
  destruct (getIsochrone env 0 (lng snapshot) (lat snapshot) _) as [data | e];
    [| discriminate].
  destruct (Api.features data) as [| feature rest] eqn:Hf; [discriminate |].
  destruct (generateRandomPointsInPolygon fuel (random env) (Api.geometry feature) 12)
    as [randomPoints | e |] eqn:Hs; try discriminate.
  intros [= _ Hp]. exists data, feature, rest, randomPoints. auto.
Qed.

Lemma sampler_length (fuel : nat) (random : nat -> number) (polygon : Polygon) (count : Z)
      (points : list Position) :
  (0 <= count)%Z ->
  generateRandomPointsInPolygon fuel random polygon count = Returned points ->
  length points = Z.to_nat count.
Proof.
  intros Hcount. unfold generateRandomPointsInPolygon.
  destruct (Turf.polygon polygon) as [turfPolygon | m]; [| discriminate].
  destruct (sample_loop fuel random 0 turfPolygon (Turf.bbox turfPolygon) count [])
    as [result |] eqn:Hloop; [| discriminate].
  intros [= <-].
  apply sample_loop_returns in Hloop; [| cbn; lia | constructor]. lia.
Qed.

Lemma Forall2_map_left {A B C : Type} (R : B -> C -> Prop) (f : A -> B) (l : list A) :
  forall l' : list C, Forall2 R (map f l) l' -> Forall2 (fun a c => R (f a) c) l l'.
Proof.
  induction l as [| a l IH]; intros l' H; inversion H; subst; constructor; auto.
Qed.

(** The fields a candidate takes from the first route of a response. *)
(** X9: the candidates a run assembles are at most six, numbered 0, 1, 2
    and so on; the [i]-th takes distance, duration and path from the first
    route of the [i]-th answered directions request, and its elevation
    difference is [estimateElevationDifference] of its distance. *)
Theorem assembled_candidates_follow_responses :
  forall (env : Env) (fuel : nat) (snapshot s s1 : State) (allRoutes : list Route),
    assembleRoutes env fuel snapshot s = Some (s1, Ok allRoutes) ->
    (length allRoutes <= 6)%nat
    /\ map id allRoutes = seq 0 (length allRoutes)
    /\ Forall (fun r => elevationDifference r
                         = Some (estimateElevationDifference (distance r)))
              allRoutes
    /\ exists data feature rest randomPoints,
        getIsochrone env 0 (lng snapshot) (lat snapshot) (halfDuration (walkDuration snapshot))
        = Ok data
        /\ Api.features data = feature :: rest
        /\ generateRandomPointsInPolygon fuel (random env) (Api.geometry feature) 12
           = Returned randomPoints
        /\ Forall2 (fun answer r =>
                      exists route others,
                        Api.routes (snd answer) = Some (route :: others)
                        /\ distance r = Api.distance route
                        /\ duration r = Api.duration route
                        /\ route_coordinates r = Api.geometry_coordinates route)
                   (answered env (lng snapshot, lat snapshot) 1 (groupPairs randomPoints))
                   allRoutes.
Proof.
  intros env fuel snapshot s s1 allRoutes Ha.
  apply assembleRoutes_Ok_inv in Ha.
  destruct Ha as (data & feature & rest & randomPoints & Hiso & Hfeat & Hsample & Hp).
  assert (Hlen : length randomPoints = 12%nat).
  { apply (@sampler_length fuel (random env) (Api.geometry feature) 12%Z randomPoints);
      [lia | exact Hsample]. }
  set (start := (lng snapshot, lat snapshot)) in *.
  set (pairs := groupPairs randomPoints) in *.
  rewrite requestRoutes_answered in Hp. cbn [app] in Hp.
  assert (Hroutes : Forall has_route (map snd (answered env start 1 pairs))).
  { apply Forall_map. apply answered_has_route. }
  destruct (processRoutes_has_route pairs Hroutes 0 []) as (a1 & E1 & _ & Hid & _).
  destruct (processRoutes_fields pairs Hroutes 0 []) as (a2 & E2 & Hfields).
  cbn [app] in E1, E2.
  assert (a1 = allRoutes) as -> by congruence.
  assert (a2 = allRoutes) as -> by congruence.
  assert (Hcount : length allRoutes = length (answered env start 1 pairs)).
  { apply Forall2_length in Hfields. now rewrite length_map in Hfields. }
  split; [| split; [| split]].
  - rewrite Hcount.
    pose proof (subseq_length (answeredPairs_subseq env start pairs 1)) as Hle.
    unfold answeredPairs in Hle. rewrite length_map in Hle.
    destruct (@groupPairs_shape (length randomPoints) randomPoints (le_n _)) as (Hg & _).
    fold pairs in Hg. rewrite Hlen in Hg. cbn in Hg. lia.
  - rewrite Hid, length_map, Hcount. reflexivity.
  - clear - Hfields. induction Hfields as [| d r ds rs (route & others & _ & Hd & _ & _ & He) _ IH];
      constructor; [| exact IH].
    rewrite Hd. exact He.
  - exists data, feature, rest, randomPoints. repeat split; try assumption.
    apply Forall2_map_left in Hfields.
    eapply Forall2_impl; [| exact Hfields].
    intros a r (route & others & Hr & Hd & Hu & Hc & _). exists route, others. auto.
Qed.

(** X9 on the run in which the first directions request fails. *)
Lemma assembled_candidates_follow_responses_witness :
  exists allRoutes s1,
    assembleRoutes Example.firstRouteFails 12 Example.initial
                   (startRun Example.firstRouteFails Example.initial)
    = Some (s1, Ok allRoutes)
    /\ (length allRoutes <= 6)%nat
    /\ map id allRoutes = seq 0 (length allRoutes).
Proof.
  destruct (assembleRoutes Example.firstRouteFails 12 Example.initial
                           (startRun Example.firstRouteFails Example.initial))
    as [[s1 [allRoutes | e]] |] eqn:Ha;
    [| vm_compute in Ha; discriminate | vm_compute in Ha; discriminate].
  exists allRoutes, s1. split; [reflexivity |].
  destruct (@assembled_candidates_follow_responses
              Example.firstRouteFails 12%nat Example.initial
              (startRun Example.firstRouteFails Example.initial) s1 allRoutes Ha)
    as (Hlen & Hid & _).
  split; assumption.
Defined.

Lemma In_firstn_In {A : Type} (n : nat) (l : list A) (x : A) : In x (firstn n l) -> In x l.
Proof.
  intros H. rewrite <- (firstn_skipn n l). apply in_or_app. left. exact H.
Qed.

Lemma groupPairs_In (points : list Position) (w : list Position) :
  In w (groupPairs points) -> exists p q, w = [p; q] /\ In p points /\ In q points.
Proof.
  intros Hw.
  pose proof (groupPairs_pairs points) as Hpairs. rewrite Forall_forall in Hpairs.
  destruct (Hpairs w Hw) as (p & q & ->). exists p, q. split; [reflexivity |].
  destruct (@groupPairs_shape (length points) points (le_n _)) as (_ & _ & Hc).
  assert (Hin : forall x, In x [p; q] -> In x points).
  { intros x Hx. apply In_firstn_In with (n := (2 * (length points / 2))%nat).
    rewrite <- Hc. apply in_concat. exists [p; q]. auto. }
  split; apply Hin; cbn; auto.
Qed.

(** X10: the two waypoints every assembled candidate carries are points
    the sampler drew and the containment test accepted for the polygon of
    the first feature of the reachability response. *)
Theorem candidate_waypoints_were_accepted_for_the_isochrone :
  forall (env : Env) (fuel : nat) (snapshot s s1 : State) (allRoutes : list Route),
    assembleRoutes env fuel snapshot s = Some (s1, Ok allRoutes) ->
    exists data feature rest,
      getIsochrone env 0 (lng snapshot) (lat snapshot) (halfDuration (walkDuration snapshot))
      = Ok data
      /\ Api.features data = feature :: rest
      /\ Forall (fun r =>
                   exists p q,
                     waypoints r = Some [p; q]
                     /\ Turf.booleanPointInPolygon p (Api.geometry feature) false = true
                     /\ Turf.booleanPointInPolygon q (Api.geometry feature) false = true)
                allRoutes.
Proof.
  intros env fuel snapshot s s1 allRoutes Ha.
  apply assembleRoutes_Ok_inv in Ha.
  destruct Ha as (data & feature & rest & randomPoints & Hiso & Hfeat & Hsample & Hp).
  exists data, feature, rest. split; [exact Hiso |]. split; [exact Hfeat |].
  assert (Haccepted : forall pt, In pt randomPoints ->
                                 Turf.booleanPointInPolygon pt (Api.geometry feature) false = true).
  { apply sampler_trace in Hsample. destruct Hsample as (n & _ & ->).
    intros pt Hin. apply filter_In in Hin. tauto. }
  destruct (assembled_candidates env (lng snapshot, lat snapshot) (groupPairs randomPoints))
    as (allRoutes' & Hp' & _ & Hw).
  assert (allRoutes' = allRoutes) as -> by congruence.
  assert (Hall : Forall (fun o => exists p q,
                             o = Some [p; q]
                             /\ Turf.booleanPointInPolygon p (Api.geometry feature) false = true
                             /\ Turf.booleanPointInPolygon q (Api.geometry feature) false = true)
                        (map waypoints allRoutes)).
  { rewrite Hw. apply Forall_map. apply Forall_forall. intros w Hin.
    apply In_firstn_In in Hin. apply groupPairs_In in Hin.
    destruct Hin as (p & q & -> & Hin1 & Hin2). exists p, q. auto. }
  rewrite Forall_map in Hall. exact Hall.
Qed.

(** X10 on the run in which the first directions request fails. *)
Lemma candidate_waypoints_were_accepted_witness :
  exists allRoutes s1,
    assembleRoutes Example.firstRouteFails 12 Example.initial
                   (startRun Example.firstRouteFails Example.initial)
    = Some (s1, Ok allRoutes)
    /\ Forall (fun r =>
                 exists p q,
                   waypoints r = Some [p; q]
                   /\ Turf.booleanPointInPolygon p Example.triangle false = true
                   /\ Turf.booleanPointInPolygon q Example.triangle false = true)
              allRoutes.
Proof.
  destruct (assembleRoutes Example.firstRouteFails 12 Example.initial
                           (startRun Example.firstRouteFails Example.initial))
    as [[s1 [allRoutes | e]] |] eqn:Ha;
    [| vm_compute in Ha; discriminate | vm_compute in Ha; discriminate].
  exists allRoutes, s1. split; [reflexivity |].
  destruct (@candidate_waypoints_were_accepted_for_the_isochrone
              Example.firstRouteFails 12%nat Example.initial
              (startRun Example.firstRouteFails Example.initial) s1 allRoutes Ha)
    as (data & feature & rest & Hiso & Hfeat & Hall).
  assert (Hbody : Ok data = Ok Example.isochroneBody) by (rewrite <- Hiso; reflexivity).
  injection Hbody as ->.
  injection Hfeat as <- _. exact Hall.
Defined.

(** *** What [addRoutesToMap] puts on the map *)

Lemma layers_of_addLayer (l : Layer) (s : State) :
  map_current s <> None -> layers_of (onMap (addLayer l) s) = layers_of s ++ [l].
Proof.
  unfold layers_of. rewrite onMap_map. destruct (map_current s); [reflexivity | congruence].
Qed.

Lemma layers_of_addSource (id : string) (d : SourceData) (s : State) :
  layers_of (onMap (addSource id d) s) = layers_of s.
Proof. unfold layers_of. rewrite onMap_map. destruct (map_current s); reflexivity. Qed.

Lemma sources_of_addLayer (l : Layer) (s : State) :
  sources_of (onMap (addLayer l) s) = sources_of s.
Proof. unfold sources_of. rewrite onMap_map. destruct (map_current s); reflexivity. Qed.

Lemma sources_of_addSource (id : string) (d : SourceData) (s : State) :
  map_current s <> None -> sources_of (onMap (addSource id d) s) = sources_of s ++ [(id, d)].
Proof.
  unfold sources_of. rewrite onMap_map. destruct (map_current s); [reflexivity | congruence].
Qed.

Lemma same_cells_onMap (f : MapboxMap -> MapboxMap) (s : State) : same_cells s (onMap f s).
Proof. unfold same_cells, onMap. destruct (map_current s); cbn; auto 10. Qed.

Lemma same_cells_trans (s1 s2 s3 : State) :
  same_cells s1 s2 -> same_cells s2 s3 -> same_cells s1 s3.
Proof. unfold same_cells. intuition congruence. Qed.

Lemma addRoutes_layout (env : Env) (active : nat) (rs : list Route) :
  Forall has_pair rs ->
  forall (index : nat) (s : State),
    map_current s <> None ->
    let s' := fst (addRoutes env active index rs s) in
    map_current s' <> None
    /\ layers_of s' = layers_of s ++ map (routeLayer env active) (seq index (length rs))
    /\ sources_of s' = sources_of s ++ mapi_from (routeSource env) index rs
    /\ waypointMarkers s'
       = waypointMarkers s ++ concat (mapi_from (routeMarkers active) index rs)
    /\ same_cells s s'.
Proof.
  induction 1 as [| r rs (p & q & rest & Hr) Hrs IH]; intros index s Hmap; cbn [addRoutes].
  - cbn. rewrite !app_nil_r. split; [exact Hmap |]. do 3 (split; [reflexivity |]).
    unfold same_cells. auto 10.
  - rewrite Hr.
    match goal with |- context [addRoutes env active (S index) rs ?s1] =>
      destruct (IH (S index) s1) as (H1 & H2 & H3 & H4 & H5) end.
    { cbn [map_current set_waypointMarkers]. do 2 apply onMap_initialised. exact Hmap. }
    cbv zeta in *. split; [exact H1 |].
    assert (Hm : routeMarkers active index r
                 = [mkMarker (nth_error ROUTE_COLORS index) p (Nat.eqb index active);
                    mkMarker (nth_error ROUTE_COLORS index) q (Nat.eqb index active)])
      by (unfold routeMarkers; rewrite Hr; reflexivity).
    split; [| split; [| split]].
    + rewrite H2.
      change (layers_of (set_waypointMarkers ?ms ?s0)) with (layers_of s0).
      rewrite layers_of_addLayer by (apply onMap_initialised; exact Hmap).
      rewrite layers_of_addSource. cbn [length seq map].
      rewrite <- !app_assoc. reflexivity.
    + rewrite H3.
      change (sources_of (set_waypointMarkers ?ms ?s0)) with (sources_of s0).
      rewrite sources_of_addLayer, sources_of_addSource by exact Hmap.
      cbn [mapi_from]. rewrite <- !app_assoc. reflexivity.
    + rewrite H4. cbn [waypointMarkers set_waypointMarkers].
      rewrite !onMap_markers. cbn [mapi_from concat]. rewrite Hm.
      rewrite <- !app_assoc. reflexivity.
    + eapply same_cells_trans; [| exact H5].
      eapply same_cells_trans; [apply same_cells_onMap |].
      eapply same_cells_trans; [apply same_cells_onMap |].
      unfold same_cells. cbn. auto 10.
Qed.

Lemma routeMarkers_count (active : nat) (rs : list Route) :
  Forall has_pair rs ->
  forall index : nat,
    length (concat (mapi_from (routeMarkers active) index rs)) = (2 * length rs)%nat.
Proof.
  induction 1 as [| r rs (p & q & rest & Hr) Hrs IH]; intros index; cbn [mapi_from concat].
  - reflexivity.
  - rewrite length_app, IH. unfold routeMarkers. rewrite Hr. cbn [length]. lia.
Qed.

Lemma addRoutesToMap_layout (env : Env) (active : nat) (rs : list Route) (s : State) :
  map_current s <> None ->
  Forall has_pair rs ->
  let s' := fst (addRoutesToMap env active rs s) in
  snd (addRoutesToMap env active rs s) = Ok tt
  /\ routes s' = rs
  /\ error s' = error s
  /\ map_current s' <> None
  /\ layers_of s' = layers_of s ++ map (routeLayer env active) (seq 0 (length rs))
  /\ sources_of s' = sources_of s ++ mapi_from (routeSource env) 0 rs
  /\ waypointMarkers s'
     = waypointMarkers s ++ concat (mapi_from (routeMarkers active) 0 rs)
  /\ same_cells s s'.
Proof.
  intros Hmap Hrs.
  destruct (@addRoutesToMap_has_pair env active rs s Hmap Hrs) as (Hok & Hroutes & Herr).
  destruct (@addRoutes_layout env active rs Hrs 0%nat s Hmap) as (H1 & H2 & H3 & H4 & H5).
  cbv zeta in *. unfold addRoutesToMap in *.
  destruct (map_current s) as [m |] eqn:Hm; [| congruence].
  destruct (addRoutes env active 0 rs s) as [s1 [[] | e]]; cbn [fst snd] in *;
    [| discriminate].
  change (layers_of (setRoutes rs s1)) with (layers_of s1).
  change (sources_of (setRoutes rs s1)) with (sources_of s1).
  cbn [map_current waypointMarkers setRoutes] in *.
  repeat (split; [assumption || reflexivity |]).
  exact H5.
Qed.

(** X11: for routes that carry their two waypoints [addRoutesToMap]
    appends, in the order of the routes, one source and one layer per
    route, with the id [route-i] of its position, and two markers per
    route at its two waypoints; only the layer and the markers of the
    route at the active index are shown; the route list becomes the
    routes added, and nothing that was on the map is removed. *)
Theorem addRoutesToMap_adds_a_layer_and_two_markers_per_route :
  forall (env : Env) (active : nat) (rs : list Route) (s : State),
    map_current s <> None ->
    Forall has_pair rs ->
    let s' := fst (addRoutesToMap env active rs s) in
    snd (addRoutesToMap env active rs s) = Ok tt
    /\ routes s' = rs
    /\ layers_of s' = layers_of s ++ map (routeLayer env active) (seq 0 (length rs))
    /\ sources_of s' = sources_of s ++ mapi_from (routeSource env) 0 rs
    /\ waypointMarkers s'
       = waypointMarkers s ++ concat (mapi_from (routeMarkers active) 0 rs)
    /\ length (waypointMarkers s') = (length (waypointMarkers s) + 2 * length rs)%nat
    /\ error s' = error s.
Proof.
  intros env active rs s Hmap Hrs s'. subst s'.
  destruct (@addRoutesToMap_layout env active rs s Hmap Hrs)
    as (H1 & H2 & H3 & _ & H5 & H6 & H7 & _).
  cbv zeta in *. repeat (split; [assumption |]). split; [| assumption].
  rewrite H7, length_app, routeMarkers_count by exact Hrs. reflexivity.
Qed.

(** X11 on three of the example candidates, the second tab being active. *)
Lemma addRoutesToMap_adds_witness :
  layer_ids (fst (addRoutesToMap Example.routingDown 1 (firstn 3 Example.candidates)
                                 Example.initial))
  = ["route-0"; "route-1"; "route-2"]%string
  /\ map visible (layers_of (fst (addRoutesToMap Example.routingDown 1
                                                 (firstn 3 Example.candidates)
                                                 Example.initial)))
     = [false; true; false].
Proof.
  assert (Hmap : map_current Example.initial <> None) by discriminate.
  assert (Hpairs : Forall has_pair (firstn 3 Example.candidates)).
  { repeat constructor; exists (1, 0), (0, 1), []; reflexivity. }
  pose proof (@addRoutesToMap_adds_a_layer_and_two_markers_per_route
                Example.routingDown 1%nat (firstn 3 Example.candidates) Example.initial
                Hmap Hpairs) as H.
  cbv zeta in H. destruct H as (_ & _ & Hl & _).
  split; [reflexivity |]. rewrite Hl. reflexivity.
Defined.

(** *** What is reported with the routes shown *)

(** X12: [generateRoutes] reports by the number of survivors of the
    filter: with none it only sets the message that no route was found and
    touches neither the map nor the route list; with one or two it shows
    them all and says how many it found; with three or more it shows
    exactly three and sets no message. *)
Theorem showRoutes_reports_by_survivor_count :
  forall (env : Env) (active : nat) (walkDuration : number) (allRoutes : list Route)
         (s : State),
    map_current s <> None ->
    Forall has_pair allRoutes ->
    let survivors := filterRoutesByDuration allRoutes walkDuration in
    let s' := fst (showRoutes env active walkDuration allRoutes s) in
    (survivors = [] ->
     s' = setError
            (Some ("Could not find any routes within " ++ numberToString env walkDuration
                     ++ " minutes. Try increasing the duration or selecting a different starting point.")%string)
            s)
    /\ ((1 <= length survivors < 3)%nat ->
        routes s' = survivors
        /\ error s'
           = Some ("Could only find "
                     ++ numberToString env (inject_Z (Z.of_nat (length survivors)))
                     ++ " routes within " ++ numberToString env walkDuration
                     ++ " minutes. Try increasing the duration.")%string)
    /\ ((3 <= length survivors)%nat ->
        routes s' = firstn 3 survivors
        /\ length (routes s') = 3%nat
        /\ error s' = error s).
Proof.
  intros env active walkDuration allRoutes s Hmap Hpairs survivors s'.
  assert (Hsub : subseq survivors allRoutes) by apply subseq_filter.
  assert (Hsp : Forall has_pair survivors) by (eapply Forall_subseq; eassumption).
  subst s'. unfold showRoutes. fold survivors. cbv zeta.
  split; [| split].
  - intros ->. reflexivity.
  - intros (H1 & H3).
    destruct (Nat.ltb_spec (length survivors) 1); [lia |].
    destruct (Nat.ltb_spec (length survivors) 3); [| lia].
    match goal with |- context [addRoutesToMap env active survivors ?s1] =>
      destruct (@addRoutesToMap_has_pair env active survivors s1 Hmap Hsp)
        as (_ & E2 & E3) end.
    rewrite E2, E3. split; reflexivity.
  - intros H3.
    destruct (Nat.ltb_spec (length survivors) 1); [lia |].
    destruct (Nat.ltb_spec (length survivors) 3); [lia |].
    assert (Hfp : Forall has_pair (firstn 3 survivors))
      by (eapply Forall_subseq; [apply subseq_firstn | exact Hsp]).
    destruct (@addRoutesToMap_has_pair env active (firstn 3 survivors) s Hmap Hfp)
      as (_ & E2 & E3).
    rewrite E2, E3, length_firstn. repeat split. lia.
Qed.

(** X12 on the example candidates, of which four are within 30 minutes
    and one within 12. *)
Lemma showRoutes_reports_witness :
  length (routes (fst (showRoutes Example.routingDown 0 30 Example.candidates
                                  Example.initial))) = 3%nat
  /\ error (fst (showRoutes Example.routingDown 0 12 Example.candidates Example.initial))
     = Some "Could only find 1 routes within 12 minutes. Try increasing the duration.".
Proof.
  assert (Hmap : map_current Example.initial <> None) by discriminate.
  assert (Hpairs : Forall has_pair Example.candidates).
  { repeat constructor; exists (1, 0), (0, 1), []; reflexivity. }
  pose proof (@showRoutes_reports_by_survivor_count
                Example.routingDown 0%nat 30 Example.candidates Example.initial
                Hmap Hpairs) as H30.
  pose proof (@showRoutes_reports_by_survivor_count
                Example.routingDown 0%nat 12 Example.candidates Example.initial
                Hmap Hpairs) as H12.
  cbv zeta in H30, H12. split.
  - apply (proj2 (proj2 H30)). cbn. lia.
  - apply (proj1 (proj2 H12)). cbn. lia.
Defined.

(** *** What [clearMapLayers] removes *)

Lemma keptId_cons (a : string) (cleared : list string) (id : string) :
  keptId (a :: cleared) id = negb (String.eqb id a) && keptId cleared id.
Proof. unfold keptId. cbn [existsb]. apply negb_orb. Qed.

Lemma clearRoutes_map (env : Env) (indices : list nat) :
  forall m : MapboxMap,
    fold_left (clearRoute env) indices m
    = mkMap (filter (fun l => keptId (map (routeId env) indices) (layer_id l)) (layers m))
            (filter (fun x => keptId (map (routeId env) indices) (fst x)) (sources m)).
Proof.
  induction indices as [| i indices IH]; intros [ls ss]; cbn [fold_left map].
  - cbn [layers sources]. f_equal; symmetry; apply forallb_filter_id; apply forallb_forall;
      reflexivity.
  - rewrite IH. unfold clearRoute, removeSource, removeLayer. cbn [layers sources].
    rewrite !filter_filter_and. f_equal; apply filter_ext; intros x;
      rewrite keptId_cons; reflexivity.
Qed.

Lemma clearMapLayers_map (env : Env) (s : State) (m : MapboxMap) :
  map_current s = Some m ->
  clearMapLayers env s
  = set_waypointMarkers []
      (set_map (Some (mkMap (filter (fun l => keptId (clearedLayerIds env) (layer_id l))
                                    (layers m))
                            (filter (fun x => keptId (clearedSourceIds env) (fst x))
                                    (sources m))))
               s).
Proof.
  intros Hm. unfold clearMapLayers. rewrite Hm. cbv zeta. rewrite clearRoutes_map.
  unfold removeSource, removeLayer. cbn [layers sources].
  rewrite !filter_filter_and. do 3 f_equal. f_equal; apply filter_ext; intros x.
  - unfold clearedLayerIds. cbn [app]. rewrite !keptId_cons.
    rewrite andb_assoc. reflexivity.
  - unfold clearedSourceIds. cbn [app]. rewrite !keptId_cons. reflexivity.
Qed.

(** X13: [clearMapLayers] removes exactly the layers named
    [isochrone-fill], [isochrone-line] and [route-0] to [route-9] and the
    sources named [isochrone] and [route-0] to [route-9], keeps every other
    layer and source in place and order, and forgets all waypoint markers;
    clearing twice is the same as clearing once, and without a map it does
    nothing. *)
Theorem clearMapLayers_removes_exactly_its_ids :
  forall (env : Env) (s : State),
    (map_current s <> None ->
     layers_of (clearMapLayers env s)
     = filter (fun l => keptId (clearedLayerIds env) (layer_id l)) (layers_of s)
     /\ sources_of (clearMapLayers env s)
        = filter (fun x => keptId (clearedSourceIds env) (fst x)) (sources_of s)
     /\ waypointMarkers (clearMapLayers env s) = [])
    /\ (map_current s = None -> clearMapLayers env s = s)
    /\ clearMapLayers env (clearMapLayers env s) = clearMapLayers env s
    /\ routes (clearMapLayers env s) = routes s
    /\ error (clearMapLayers env s) = error s
    /\ same_cells s (clearMapLayers env s).
Proof.
  intros env s. destruct (map_current s) as [m |] eqn:Hm.
  - rewrite (clearMapLayers_map env s Hm).
    split; [intros _; unfold layers_of, sources_of; rewrite Hm; cbn; auto |].
    split; [discriminate |]. split.
    + erewrite clearMapLayers_map by reflexivity.
      cbn [set_waypointMarkers set_map map_current waypointMarkers lng lat loading
           isochroneData routes activeRouteIndex error walkDuration debugInfo layers sources].
      rewrite !filter_filter_and.
      assert (E : forall (A : Type) (k : A -> bool) (l : list A),
                 filter (fun x => k x && k x) l = filter k l)
        by (intros; apply filter_ext; intros; apply andb_diag).
      rewrite (E _ (fun l => keptId (clearedLayerIds env) (layer_id l))).
      rewrite (E _ (fun x => keptId (clearedSourceIds env) (fst x))).
      reflexivity.
    + cbn. unfold same_cells. cbn. auto 10.
  - unfold clearMapLayers. rewrite Hm.
    split; [congruence |]. split; [reflexivity |]. rewrite Hm.
    unfold same_cells. auto 10.
Qed.

(** X13 on a map with a layer of its style, a leftover [route-3] and a
    layer [route-10], which is out of the range that is cleared. *)
Lemma clearMapLayers_removes_witness :
  layer_ids (clearMapLayers Example.routingDown
               (mkState (Some (mkMap [mkLayer "water" "composite" true;
                                      mkLayer "route-3" "route-3" true;
                                      mkLayer "isochrone-fill" "isochrone" true;
                                      mkLayer "route-10" "route-10" true] []))
                        [] 0 0 false None [] 0 None 30 None))
  = ["water"; "route-10"]%string.
Proof.
  unfold layer_ids.
  pose proof (proj1 (clearMapLayers_removes_exactly_its_ids Example.routingDown
                       (mkState (Some (mkMap [mkLayer "water" "composite" true;
                                              mkLayer "route-3" "route-3" true;
                                              mkLayer "isochrone-fill" "isochrone" true;
                                              mkLayer "route-10" "route-10" true] []))
                                [] 0 0 false None [] 0 None 30 None))
                    ltac:(discriminate)) as (Hl & _).
  unfold layers_of in Hl.
  destruct (map_current (clearMapLayers Example.routingDown _)) as [m |] eqn:Hm;
    [| vm_compute in Hm; discriminate].
  rewrite Hl. reflexivity.
Defined.

(** *** The map and the state after a completed run *)

Lemma showRoutes_layout (env : Env) (active : nat) (walkDuration : number)
      (allRoutes : list Route) (s : State) :
  map_current s <> None ->
  Forall has_pair allRoutes ->
  routes s = [] ->
  let shown := firstn 3 (filterRoutesByDuration allRoutes walkDuration) in
  let s' := fst (showRoutes env active walkDuration allRoutes s) in
  routes s' = shown
  /\ Forall has_pair shown
  /\ layers_of s' = layers_of s ++ map (routeLayer env active) (seq 0 (length shown))
  /\ sources_of s' = sources_of s ++ mapi_from (routeSource env) 0 shown
  /\ waypointMarkers s'
     = waypointMarkers s ++ concat (mapi_from (routeMarkers active) 0 shown)
  /\ same_cells s s'.
Proof.
  intros Hmap Hpairs Hroutes shown s'.
  assert (Hsub : subseq (filterRoutesByDuration allRoutes walkDuration) allRoutes)
    by apply subseq_filter.
  assert (Hsp : Forall has_pair shown).
  { eapply Forall_subseq; [| exact Hpairs].
    eapply subseq_trans; [apply subseq_firstn | exact Hsub]. }
  split; [| split; [exact Hsp |]]; subst s' shown; unfold showRoutes; cbv zeta.
  - destruct (filterRoutesByDuration allRoutes walkDuration) as [| r1 survivors] eqn:Hf.
    + cbn. exact Hroutes.
    + pose proof (@showRoutes_completes env active walkDuration allRoutes s Hmap Hpairs)
        as (_ & Hset).
      unfold showRoutes in Hset. cbv zeta in Hset. rewrite Hf in Hset. exact Hset.
  - destruct (filterRoutesByDuration allRoutes walkDuration) as [| r1 survivors] eqn:Hf.
    + cbn [length Nat.ltb Nat.leb firstn seq map mapi_from concat fst].
      rewrite !app_nil_r.
      change (layers_of (setError ?e s)) with (layers_of s).
      change (sources_of (setError ?e s)) with (sources_of s).
      repeat (split; [reflexivity |]). unfold same_cells. cbn. auto 10.
    + destruct (length (r1 :: survivors) <? 1)%nat eqn:H1; [cbn in H1; discriminate |].
      destruct (length (r1 :: survivors) <? 3)%nat eqn:H3.
      * apply Nat.ltb_lt in H3. rewrite firstn_all2 in * by lia.
        match goal with |- context [addRoutesToMap env active ?rs ?s1] =>
          destruct (@addRoutesToMap_layout env active rs s1 Hmap Hsp)
            as (_ & _ & _ & _ & H5 & H6 & H7 & H8) end.
        cbv zeta in *. rewrite H5, H6, H7. repeat (split; [reflexivity |]).
        eapply same_cells_trans; [| exact H8]. unfold same_cells. cbn. auto 10.
      * destruct (@addRoutesToMap_layout env active (firstn 3 (r1 :: survivors)) s Hmap Hsp)
          as (_ & _ & _ & _ & H5 & H6 & H7 & H8).
        cbv zeta in *. rewrite H5, H6, H7. repeat (split; [reflexivity |]). exact H8.
Qed.

Lemma assembleRoutes_Ok_layers (env : Env) (fuel : nat) (snapshot s s1 : State)
      (allRoutes : list Route) :
  map_current s <> None ->
  assembleRoutes env fuel snapshot s = Some (s1, Ok allRoutes) ->
  exists data,
    getIsochrone env 0 (lng snapshot) (lat snapshot) (halfDuration (walkDuration snapshot))
    = Ok data
    /\ isochroneData s1 = Some data
    /\ layers_of s1
       = layers_of s ++ [mkLayer "isochrone-fill" "isochrone" true;
                         mkLayer "isochrone-line" "isochrone" true]
    /\ sources_of s1 = sources_of s ++ [("isochrone"%string, FeatureCollectionData data)]
    /\ lng s1 = lng s /\ lat s1 = lat s /\ walkDuration s1 = walkDuration s
    /\ activeRouteIndex s1 = activeRouteIndex s.
Proof.
  intros Hmap. unfold assembleRoutes. cbv zeta.
  destruct (getIsochrone env 0 (lng snapshot) (lat snapshot) _) as [data | e];
    [| discriminate].
  destruct (Api.features data) as [| feature rest]; [discriminate |].
  destruct (generateRandomPointsInPolygon fuel (random env) (Api.geometry feature) 12)
    as [randomPoints | e |]; try discriminate.
  intros [= <- _]. exists data. split; [reflexivity |].
  match goal with |- context [setIsochroneData (Some data) ?s0] =>
    set (s2 := setIsochroneData (Some data) s0) end.
  assert (Hmap2 : map_current s2 <> None) by exact Hmap.
  rewrite !layers_of_addLayer, layers_of_addSource
    by (repeat apply onMap_initialised; exact Hmap2).
  rewrite !sources_of_addLayer, sources_of_addSource by exact Hmap2.
  rewrite <- !app_assoc.
  split; [| split; [reflexivity | split; [reflexivity |]]].
  - unfold onMap. repeat (destruct (map_current _); cbn); reflexivity.
  - pose proof (same_cells_onMap (addSource "isochrone" (FeatureCollectionData data)) s2) as H1.
    match goal with |- context [onMap ?f (onMap ?g (onMap ?h s2))] =>
      pose proof (same_cells_onMap g (onMap h s2)) as H2;
      pose proof (same_cells_onMap f (onMap g (onMap h s2))) as H3 end.
    pose proof (same_cells_trans H1 (same_cells_trans H2 H3)) as H.
    unfold same_cells in H. cbn [lng lat walkDuration activeRouteIndex] in *.
    destruct H as (Ha & Hb & _ & _ & Hc & Hd & _). rewrite Ha, Hb, Hc, Hd.
    subst s2. cbn. auto.
Qed.

Lemma routeSource_ids (env : Env) (rs : list Route) :
  forall index : nat,
    map fst (mapi_from (routeSource env) index rs) = map (routeId env) (seq index (length rs)).
Proof.
  induction rs as [| r rs IH]; intros index; cbn; [reflexivity | now rewrite IH].
Qed.

Lemma clearMapLayers_same_cells (env : Env) (s : State) :
  same_cells s (clearMapLayers env s).
Proof.
  unfold clearMapLayers, same_cells. destruct (map_current s); cbn; auto 10.
Qed.

Lemma startRun_cells (env : Env) (s : State) :
  map_current s <> None ->
  layers_of (startRun env s) = layers_of (clearMapLayers env s)
  /\ sources_of (startRun env s) = sources_of (clearMapLayers env s)
  /\ lng (startRun env s) = lng s /\ lat (startRun env s) = lat s
  /\ walkDuration (startRun env s) = walkDuration s
  /\ isochroneData (startRun env s) = isochroneData s.
Proof.
  intros Hmap. destruct (map_current s) as [m |] eqn:Hm; [| congruence].
  unfold startRun. cbv zeta.
  rewrite (clearMapLayers_map env s Hm).
  erewrite clearMapLayers_map by (cbn; exact Hm). cbn. auto 10.
Qed.

(** X14: after a run that completes, the map holds what was not cleared,
    then the two isochrone layers, then one layer per displayed route, and
    the waypoint markers are exactly two per displayed route, in the order
    of the routes; the layer and the markers that are shown are those at
    the index that was active when the run started, while the active index
    itself is back at 0; loading is over and the starting point and the
    walk duration are as before. *)
Theorem completed_run_map_matches_routes :
  forall (env : Env) (fuel : nat) (s s' : State),
    generateRoutes_exit env fuel s = Some (s', Completed) ->
    loading s' = false
    /\ activeRouteIndex s' = 0%nat
    /\ layers_of s'
       = layers_of (clearMapLayers env s)
           ++ [mkLayer "isochrone-fill" "isochrone" true;
               mkLayer "isochrone-line" "isochrone" true]
           ++ map (routeLayer env (activeRouteIndex s)) (seq 0 (length (routes s')))
    /\ map fst (sources_of s')
       = map fst (sources_of (clearMapLayers env s))
           ++ ["isochrone"%string] ++ map (routeId env) (seq 0 (length (routes s')))
    /\ waypointMarkers s'
       = concat (mapi_from (routeMarkers (activeRouteIndex s)) 0 (routes s'))
    /\ length (waypointMarkers s') = (2 * length (routes s'))%nat
    /\ lng s' = lng s /\ lat s' = lat s /\ walkDuration s' = walkDuration s.
Proof.
  intros env fuel s s'. unfold generateRoutes_exit.
  destruct (map_current s) as [m |] eqn:Hm; [| discriminate].
  assert (Hmap : map_current s <> None) by congruence. clear m Hm.
  destruct (@startRun_clears env s Hmap) as (Hmap0 & Hmk0 & Hr0 & _).
  destruct (@startRun_cells env s Hmap) as (Hl0 & Hs0 & Hlng0 & Hlat0 & Hwd0 & _).
  cbv zeta in *. unfold tryBlock.
  destruct (assembleRoutes env fuel s (startRun env s)) as [[s1 [allRoutes | e]] |] eqn:Ha;
    [| discriminate | discriminate].
  pose proof (assembleRoutes_effects _ _ _ _ Ha) as (Hr1 & Hmk1 & _ & _ & Hmap1 & _).
  pose proof (assembleRoutes_Ok_has_pair _ _ _ _ Ha) as Hpairs.
  destruct (@assembleRoutes_Ok_layers env fuel s (startRun env s) s1 allRoutes Hmap0 Ha)
    as (data & _ & _ & Hl1 & Hs1 & Hlng1 & Hlat1 & Hwd1 & _).
  destruct (@showRoutes_layout env (activeRouteIndex s) (walkDuration s) allRoutes s1
                               (Hmap1 Hmap0) Hpairs ltac:(congruence))
    as (Hr2 & Hsp & Hl2 & Hs2 & Hmk2 & Hc2).
  destruct (@showRoutes_completes env (activeRouteIndex s) (walkDuration s) allRoutes s1
                                  (Hmap1 Hmap0) Hpairs) as (Hok & _).
  cbv zeta in *.
  destruct (showRoutes env (activeRouteIndex s) (walkDuration s) allRoutes s1)
    as [s2 res]. cbn [fst snd] in *. subst res. intros [= <-].
  change (layers_of (setLoading false s2)) with (layers_of s2).
  change (sources_of (setLoading false s2)) with (sources_of s2).
  cbn [loading activeRouteIndex waypointMarkers routes lng lat walkDuration setLoading].
  destruct Hc2 as (Hlng2 & Hlat2 & _ & _ & Hact2 & Hwd2 & _).
  split; [reflexivity |]. split.
  { rewrite Hact2.
    destruct (@assembleRoutes_Ok_layers env fuel s (startRun env s) s1 allRoutes Hmap0 Ha)
      as (_ & _ & _ & _ & _ & _ & _ & _ & Hact1).
    rewrite Hact1. unfold startRun. cbv zeta.
    match goal with |- activeRouteIndex (clearMapLayers env ?s0) = _ =>
      pose proof (clearMapLayers_same_cells env s0) as Hcells end.
    unfold same_cells in Hcells. destruct Hcells as (_ & _ & _ & _ & Hx & _).
    rewrite Hx. reflexivity. }
  rewrite Hr2 in *.
  split; [rewrite Hl2, Hl1, Hl0, <- app_assoc; reflexivity |].
  split.
  { rewrite Hs2, Hs1, Hs0, !map_app, routeSource_ids. cbn [map fst].
    rewrite <- app_assoc. reflexivity. }
  split; [rewrite Hmk2, Hmk1, Hmk0; reflexivity |].
  split; [rewrite Hmk2, Hmk1, Hmk0; cbn [app]; apply routeMarkers_count; exact Hsp |].
  repeat split; congruence.
Qed.
(** X14 on a run started while the second tab was active: the first
    directions request fails, three routes are shown, and the visible
    route layer is the second one. *)
Lemma completed_run_map_matches_routes_witness :
  exists s',
    generateRoutes_exit Example.firstRouteFails 12 (setActiveRouteIndex 1 Example.initial)
    = Some (s', Completed)
    /\ activeRouteIndex s' = 0%nat
    /\ length (waypointMarkers s') = (2 * length (routes s'))%nat.
Proof.
  destruct (generateRoutes_exit Example.firstRouteFails 12
                                (setActiveRouteIndex 1 Example.initial))
    as [[s' exit] |] eqn:Hrun; [| vm_compute in Hrun; discriminate].
  assert (Hexit : exit = Completed).
  { pose proof Hrun as Hrun'. vm_compute in Hrun'. congruence. }
  subst exit. exists s'. split; [reflexivity |].
  destruct (@completed_run_map_matches_routes
              Example.firstRouteFails 12%nat (setActiveRouteIndex 1 Example.initial) s' Hrun)
    as (_ & Hact & _ & _ & _ & Hlen & _).
  split; assumption.
Defined.

(** *** A click on the map *)

(** X15: a click on the map makes the clicked point the starting point,
    moves the marker of the starting point if there is one, empties the
    route list and the isochrone data and clears the map as
    [clearMapLayers] does, so that no isochrone layer, no layer of a route
    0 to 9 and no waypoint marker is left; the error message, the loading
    flag, the active tab and the walk duration stay as they were. *)
Theorem handleMapClick_resets_routes_and_keeps_message :
  forall (env : Env) (e : Position) (markerRef : option Position) (s : State),
    let s' := fst (handleMapClick env e markerRef s) in
    lng s' = fst e /\ lat s' = snd e
    /\ snd (handleMapClick env e markerRef s) = option_map (fun _ => e) markerRef
    /\ routes s' = [] /\ isochroneData s' = None
    /\ error s' = error s /\ loading s' = loading s
    /\ activeRouteIndex s' = activeRouteIndex s /\ walkDuration s' = walkDuration s
    /\ layers_of s'
       = filter (fun l => keptId (clearedLayerIds env) (layer_id l)) (layers_of s)
    /\ sources_of s'
       = filter (fun x => keptId (clearedSourceIds env) (fst x)) (sources_of s)
    /\ (map_current s <> None -> waypointMarkers s' = [])
    /\ (forall i, (i < 10)%nat -> ~ In (routeId env i) (layer_ids s')).
Proof.
  intros env [x y] markerRef s s'. subst s'. unfold handleMapClick. cbv zeta.
  cbn [fst snd].
  destruct (map_current s) as [m |] eqn:Hm.
  - erewrite clearMapLayers_map by (cbn [map_current setLng setLat]; exact Hm).
    unfold layers_of, sources_of, layer_ids.
    cbn [lng lat routes isochroneData error loading activeRouteIndex walkDuration
         waypointMarkers map_current layers sources setLng setLat setRoutes
         setIsochroneData set_waypointMarkers set_map].
    rewrite Hm.
    do 2 (split; [reflexivity |]). split; [destruct markerRef; reflexivity |].
    do 8 (split; [reflexivity |]). split; [reflexivity |].
    intros i Hi Hin. apply in_map_iff in Hin. destruct Hin as (l & Hid & Hl).
    apply filter_In in Hl. destruct Hl as (_ & Hkept).
    unfold keptId in Hkept. apply negb_true_iff in Hkept.
    assert (Hex : existsb (String.eqb (layer_id l)) (clearedLayerIds env) = true).
    { apply existsb_exists. exists (routeId env i). split.
      - unfold clearedLayerIds. apply in_or_app. right. apply in_map. apply in_seq. lia.
      - rewrite Hid. apply String.eqb_refl. }
    congruence.
  - unfold clearMapLayers.
    cbn [map_current setLng setLat]. rewrite Hm.
    unfold layers_of, sources_of, layer_ids.
    cbn [lng lat routes isochroneData error loading activeRouteIndex walkDuration
         waypointMarkers map_current layers sources setLng setLat setRoutes
         setIsochroneData set_waypointMarkers set_map].
    rewrite Hm.
    do 2 (split; [reflexivity |]). split; [destruct markerRef; reflexivity |].
    do 8 (split; [reflexivity |]). split; [congruence |]. intros i Hi [].
Qed.

(** *** Changing the tab *)

Lemma mapi_from_nth_error {A B : Type} (f : nat -> A -> B) (l : list A) :
  forall (index j : nat),
    nth_error (mapi_from f index l) j = option_map (f (index + j)%nat) (nth_error l j).
Proof.
  induction l as [| x l IH]; intros index [| j]; cbn [mapi_from nth_error option_map];
    try reflexivity.
  - now rewrite Nat.add_0_r.
  - rewrite IH. f_equal. f_equal. lia.
Qed.

Lemma mapi_from_length {A B : Type} (f : nat -> A -> B) (l : list A) :
  forall index : nat, length (mapi_from f index l) = length l.
Proof. induction l as [| x l IH]; intros index; cbn; [reflexivity | now rewrite IH]. Qed.

Lemma hideRoute_cells (env : Env) (s : State) (i : nat) :
  waypointMarkers (hideRoute env s i) = displayMarkers i false (waypointMarkers s)
  /\ layers_of (hideRoute env s i)
     = map (fun l => if String.eqb (layer_id l) (routeId env i)
                     then mkLayer (layer_id l) (layer_source l) false
                     else l) (layers_of s)
  /\ sources_of (hideRoute env s i) = sources_of s
  /\ routes (hideRoute env s i) = routes s
  /\ error (hideRoute env s i) = error s
  /\ (map_current s <> None -> map_current (hideRoute env s i) <> None)
  /\ same_cells s (hideRoute env s i).
Proof.
  unfold hideRoute, layers_of, sources_of, onMap, same_cells.
  destruct (map_current s) as [m |] eqn:Hm; cbn; rewrite ?Hm; cbn;
    repeat split; try reflexivity; try discriminate; auto.
Qed.

(** The markers and the layers after the routes in [indices] were hidden. *)
Lemma hideRoutes_cells (env : Env) (indices : list nat) :
  forall s : State,
    let s' := fold_left (hideRoute env) indices s in
    (forall j, nth_error (waypointMarkers s') j
               = option_map (fun marker =>
                               if existsb (Nat.eqb (j / 2)) indices
                               then mkMarker (color marker) (lngLat marker) false
                               else marker)
                            (nth_error (waypointMarkers s) j))
    /\ layers_of s'
       = map (fun l => if existsb (fun i => String.eqb (layer_id l) (routeId env i)) indices
                       then mkLayer (layer_id l) (layer_source l) false
                       else l) (layers_of s)
    /\ sources_of s' = sources_of s
    /\ routes s' = routes s /\ error s' = error s
    /\ (map_current s <> None -> map_current s' <> None)
    /\ same_cells s s'.
Proof.
  induction indices as [| i indices IH]; intros s; cbn [fold_left].
  - cbv zeta. split; [intros j; destruct (nth_error (waypointMarkers s) j); reflexivity |].
    split; [rewrite <- (map_id (layers_of s)) at 1; apply map_ext; reflexivity |].
    unfold same_cells. repeat split; auto.
  - destruct (IH (hideRoute env s i)) as (Hmk & Hl & Hs & Hr & He & Hm & Hc).
    destruct (hideRoute_cells env s i) as (Hmk1 & Hl1 & Hs1 & Hr1 & He1 & Hm1 & Hc1).
    cbv zeta in *. split; [| split; [| split; [| split; [| split; [| split]]]]].
    + intros j. rewrite Hmk, Hmk1. unfold displayMarkers.
      rewrite mapi_from_nth_error. cbn [Nat.add existsb].
      destruct (nth_error (waypointMarkers s) j) as [marker |]; cbn [option_map];
        [| reflexivity].
      destruct (Nat.eqb (j / 2) i); cbn [orb color lngLat];
        [destruct (existsb (Nat.eqb (j / 2)) indices) |]; reflexivity.
    + rewrite Hl, Hl1, map_map. apply map_ext. intros l. cbn [existsb].
      destruct (String.eqb (layer_id l) (routeId env i)); cbn [orb layer_id layer_source];
        [destruct (existsb _ indices) |]; reflexivity.
    + congruence.
    + congruence.
    + congruence.
    + auto.
    + eapply same_cells_trans; eassumption.
Qed.

Lemma existsb_eqb_seq (k n : nat) : existsb (Nat.eqb k) (seq 0 n) = (k <? n)%nat.
Proof.
  destruct (Nat.ltb_spec k n) as [Hlt | Hge].
  - apply existsb_exists. exists k. split; [apply in_seq; lia | apply Nat.eqb_refl].
  - destruct (existsb (Nat.eqb k) (seq 0 n)) eqn:E; [| reflexivity].
    apply existsb_exists in E. destruct E as (x & Hin & Heq).
    apply in_seq in Hin. apply Nat.eqb_eq in Heq. lia.
Qed.

Lemma layers_of_setLayoutProperty (id : string) (v : bool) (s : State) :
  layers_of (onMap (setLayoutProperty id v) s)
  = map (fun l => if String.eqb (layer_id l) id
                  then mkLayer (layer_id l) (layer_source l) v
                  else l) (layers_of s).
Proof.
  unfold layers_of. rewrite onMap_map. destruct (map_current s); reflexivity.
Qed.

Lemma sources_of_setLayoutProperty (id : string) (v : bool) (s : State) :
  sources_of (onMap (setLayoutProperty id v) s) = sources_of s.
Proof.
  unfold sources_of. rewrite onMap_map. destruct (map_current s); reflexivity.
Qed.

(** X16: changing the tab makes the chosen index the active one and,
    when the markers are the two per route that a run leaves, shows
    exactly the two markers of the chosen route and hides all others,
    without moving or recolouring any; the layer named after the chosen
    route becomes visible, the layers named after the other displayed
    routes are hidden, every other layer is as it was, and no layer or
    source is added or removed. *)
Theorem handleTabChange_shows_only_the_chosen_route :
  forall (env : Env) (value : nat) (s : State),
    map_current s <> None ->
    length (waypointMarkers s) = (2 * length (routes s))%nat ->
    let s' := handleTabChange env value s in
    activeRouteIndex s' = value
    /\ routes s' = routes s /\ error s' = error s
    /\ length (waypointMarkers s') = length (waypointMarkers s)
    /\ (forall j marker,
           nth_error (waypointMarkers s) j = Some marker ->
           nth_error (waypointMarkers s') j
           = Some (mkMarker (color marker) (lngLat marker) (Nat.eqb (j / 2) value)))
    /\ map layer_id (layers_of s') = map layer_id (layers_of s)
    /\ sources_of s' = sources_of s
    /\ (forall l, In l (layers_of s') -> layer_id l = routeId env value -> visible l = true)
    /\ (forall l i, In l (layers_of s') -> (i < length (routes s))%nat ->
                    layer_id l = routeId env i -> routeId env i <> routeId env value ->
                    visible l = false)
    /\ (forall l, In l (layers_of s') -> layer_id l <> routeId env value ->
                  (forall i, (i < length (routes s))%nat -> layer_id l <> routeId env i) ->
                  In l (layers_of s)).
Proof.
  intros env value s Hmap Hcount s'. subst s'. unfold handleTabChange, showActiveRoute.
  cbv zeta.
  set (s1 := setActiveRouteIndex value s).
  assert (Hmap1 : map_current s1 <> None) by exact Hmap.
  destruct (map_current s1) as [m1 |] eqn:Hm1; [| congruence].
  change (routes s1) with (routes s).
  destruct (hideRoutes_cells env (seq 0 (length (routes s))) s1)
    as (Hmk & Hl & Hs & Hr & He & Hm & Hc).
  cbv zeta in Hmk, Hl, Hs, Hr, He, Hm, Hc.
  set (sA := fold_left (hideRoute env) (seq 0 (length (routes s))) s1) in *.
  set (sB := onMap (setLayoutProperty (routeId env value) true) sA).
  change (layers_of (set_waypointMarkers ?ms sB)) with (layers_of sB).
  change (sources_of (set_waypointMarkers ?ms sB)) with (sources_of sB).
  cbn [activeRouteIndex routes error waypointMarkers set_waypointMarkers].
  assert (HlB : layers_of sB
                = map (fun l => if String.eqb (layer_id l) (routeId env value)
                                then mkLayer (layer_id l) (layer_source l) true
                                else l) (layers_of sA))
    by apply layers_of_setLayoutProperty.
  assert (HcB : same_cells s1 sB).
  { eapply same_cells_trans; [exact Hc | apply same_cells_onMap]. }
  assert (Hlayer : forall l, In l (layers_of sB) ->
                   exists l0, In l0 (layers_of s) /\ layer_id l = layer_id l0
                              /\ (layer_id l0 = routeId env value -> visible l = true)
                              /\ (layer_id l0 <> routeId env value ->
                                  (exists i, (i < length (routes s))%nat
                                             /\ layer_id l0 = routeId env i) ->
                                  visible l = false)
                              /\ (layer_id l0 <> routeId env value ->
                                  (forall i, (i < length (routes s))%nat ->
                                             layer_id l0 <> routeId env i) ->
                                  l = l0)).
  { intros l Hin. rewrite HlB, Hl, map_map in Hin. apply in_map_iff in Hin.
    destruct Hin as (l0 & <- & Hin0). exists l0.
    change (layers_of s1) with (layers_of s) in Hin0. split; [exact Hin0 |].
    set (hidden := existsb (fun i => String.eqb (layer_id l0) (routeId env i))
                           (seq 0 (length (routes s)))).
    assert (Hid : layer_id (if hidden then mkLayer (layer_id l0) (layer_source l0) false
                            else l0) = layer_id l0) by (destruct hidden; reflexivity).
    rewrite Hid.
    destruct (String.eqb_spec (layer_id l0) (routeId env value)) as [Heq | Hneq].
    - cbn [layer_id visible]. repeat split; try reflexivity; try contradiction; auto.
    - rewrite Hid. split; [reflexivity |]. split; [intros; contradiction |]. split.
      + intros _ (i & Hi & Hli).
        assert (hidden = true) as ->.
        { apply existsb_exists. exists i. split; [apply in_seq; lia |].
          rewrite Hli. apply String.eqb_refl. }
        reflexivity.
      + intros _ Hnone.
        assert (hidden = false) as ->; [| reflexivity].
        destruct hidden eqn:E; [| reflexivity]. apply existsb_exists in E.
        destruct E as (i & Hi & Hli). apply in_seq in Hi. apply String.eqb_eq in Hli.
        exfalso. apply (Hnone i); [lia | exact Hli]. }
  split; [destruct HcB as (_ & _ & _ & _ & Ha & _); rewrite Ha; reflexivity |].
  split.
  { unfold sB. rewrite onMap_routes. exact Hr. }
  split.
  { unfold sB. rewrite onMap_error. exact He. }
  assert (HmkB : waypointMarkers sB = waypointMarkers sA) by apply onMap_markers.
  rewrite HmkB. split.
  { unfold displayMarkers. rewrite mapi_from_length.
    apply Nat.le_antisymm.
    - destruct (Nat.le_gt_cases (length (waypointMarkers sA)) (length (waypointMarkers s)))
        as [H | H]; [exact H |].
      apply nth_error_Some in H. rewrite Hmk in H.
      change (waypointMarkers s1) with (waypointMarkers s) in H.
      destruct (nth_error (waypointMarkers s) (length (waypointMarkers s))) eqn:E;
        [| cbn in H; congruence].
      assert (Hnone : nth_error (waypointMarkers s) (length (waypointMarkers s)) = None)
        by (apply nth_error_None; lia).
      congruence.
    - destruct (Nat.le_gt_cases (length (waypointMarkers s)) (length (waypointMarkers sA)))
        as [H | H]; [exact H |].
      apply nth_error_Some in H.
      assert (Hnone : nth_error (waypointMarkers sA) (length (waypointMarkers sA)) = None)
        by (apply nth_error_None; lia).
      rewrite Hmk in Hnone. change (waypointMarkers s1) with (waypointMarkers s) in Hnone.
      destruct (nth_error (waypointMarkers s) (length (waypointMarkers sA)));
        [cbn in Hnone; discriminate | congruence]. }
  split.
  { intros j marker Hj. unfold displayMarkers. rewrite mapi_from_nth_error, Hmk.
    change (waypointMarkers s1) with (waypointMarkers s). rewrite Hj.
    cbn [option_map Nat.add]. rewrite existsb_eqb_seq.
    assert (Hlt : (j < length (waypointMarkers s))%nat)
      by (apply nth_error_Some; congruence).
    assert (Hdiv : (j / 2 < length (routes s))%nat)
      by (apply Nat.Div0.div_lt_upper_bound; lia).
    destruct (Nat.ltb_spec (j / 2) (length (routes s))); [| lia].
    cbn [color lngLat]. destruct (Nat.eqb (j / 2) value); reflexivity. }
  split.
  { rewrite HlB, Hl, !map_map. change (layers_of s1) with (layers_of s).
    apply map_ext. intros l.
    destruct (existsb _ _); cbn [layer_id]; destruct (String.eqb _ _); reflexivity. }
  split.
  { unfold sB. rewrite sources_of_setLayoutProperty. exact Hs. }
  split; [| split].
  - intros l Hin Hid. destruct (Hlayer l Hin) as (l0 & _ & Hid0 & Hv & _).
    apply Hv. congruence.
  - intros l i Hin Hi Hid Hneq. destruct (Hlayer l Hin) as (l0 & _ & Hid0 & _ & Hv & _).
    apply Hv; [congruence |]. exists i. split; [exact Hi | congruence].
  - intros l Hin Hneq Hnone. destruct (Hlayer l Hin) as (l0 & Hin0 & Hid0 & _ & _ & Hsame).
    rewrite (Hsame ltac:(congruence) ltac:(intros i Hi; rewrite <- Hid0; auto)).
    exact Hin0.
Qed.

(** X16 on the state that shows one route, the second tab being chosen:
    both markers of the only route are hidden. *)
Lemma handleTabChange_shows_witness :
  activeRouteIndex (handleTabChange Example.routingDown 1 Example.showingOneRoute) = 1%nat
  /\ map displayed
         (waypointMarkers (handleTabChange Example.routingDown 1 Example.showingOneRoute))
     = [false; false].
Proof.
  assert (Hmap : map_current Example.showingOneRoute <> None) by discriminate.
  pose proof (@handleTabChange_shows_only_the_chosen_route
                Example.routingDown 1%nat Example.showingOneRoute Hmap eq_refl) as H.
  cbv zeta in H. split; [exact (proj1 H) | reflexivity].
Defined.

(** *** The routes a run leaves, and their pairs *)

(** X17: whatever the provider answers, a run that ends, started with the
    map initialised, leaves at most three routes, each of a duration
    within the walk duration, and leaves none when it was caught. *)
Theorem ended_run_leaves_at_most_three_routes_within_duration :
  forall (env : Env) (fuel : nat) (s s' : State) (exit : Exit),
    map_current s <> None ->
    generateRoutes_exit env fuel s = Some (s', exit) ->
    (length (routes s') <= 3)%nat
    /\ Forall (fun r => duration r <= walkDuration s * 60) (routes s')
    /\ (forall e, exit = Caught e -> routes s' = [])
    /\ exit <> EarlyReturn.
Proof.
  intros env fuel s s' exit Hmap Hrun.
  destruct (@ended_run_displays_first_three env fuel s s' exit Hmap Hrun)
    as [(-> & allRoutes & s1 & _ & ->) | (e & -> & ->)].
  - split; [rewrite length_firstn; lia |]. split; [| split; [discriminate | discriminate]].
    eapply Forall_subseq; [apply subseq_firstn |].
    apply Forall_forall. intros r Hr. apply filterRoutesByDuration_In in Hr. tauto.
  - split; [cbn; lia |]. split; [constructor |]. split; [reflexivity | discriminate].
Qed.

(** X17 on the run in which the first directions request fails. *)
Lemma ended_run_leaves_at_most_three_witness :
  exists s' exit,
    generateRoutes_exit Example.firstRouteFails 12 Example.initial = Some (s', exit)
    /\ (length (routes s') <= 3)%nat.
Proof.
  assert (Hmap : map_current Example.initial <> None) by discriminate.
  destruct (generateRoutes_exit Example.firstRouteFails 12 Example.initial)
    as [[s' exit] |] eqn:Hrun; [| vm_compute in Hrun; discriminate].
  exists s', exit. split; [reflexivity |].
  exact (proj1 (@ended_run_leaves_at_most_three_routes_within_duration
                  Example.firstRouteFails 12%nat Example.initial s' exit Hmap Hrun)).
Defined.


